(** * ampmove: the BVH motion parser ([src/utils/parse_bvh.py])

    A shallow embedding of [parse_bvh] and the properties of the motion
    dataset it returns.  The third-party [bvh] package is taken as an
    interface: a [Bvh] object is the record of the four members the parser
    uses, with the outcome of each call (a value or a raised exception).
    Python floats are binary64 primitive floats; the [np.float32] array is a
    list of rows of binary32 numbers. *)

From Stdlib Require Import List String Ascii ZArith Lia Bool.
From Stdlib Require Import PrimFloat SpecFloat FloatOps Uint63.
Import ListNotations.
Local Open Scope string_scope.
Local Open Scope list_scope.

(** ** Exceptions and the outcome of a call *)

(** The parser names one exception class, [KeyError] (caught at line 57);
    [open] raises [FileNotFoundError] on a missing path; every other
    exception is carried by class name and message. *)
Inductive exn : Type :=
| KeyError (msg : string)
| FileNotFoundError (path : string)
| Exception (cls msg : string).

Inductive result (A : Type) : Type :=
| Ok (a : A)
| Raise (e : exn).
Arguments Ok {A} a.
Arguments Raise {A} e.

Definition is_ok {A} (r : result A) : bool :=
  match r with Ok _ => true | Raise _ => false end.

(** ** The [bvh] package, as the parser sees it *)

(** A joint node; the parser reads only [j.name]. *)
Record BvhNode : Type := { name : string }.

(** A [Bvh] object: [get_joints()], the properties [nframes] and
    [frame_time], and [frame_joint_channel(frame_index, joint, channel)].
    Each member is given by its outcome; the calls read the object and
    change nothing.  A sample is a Python float, so the parser's [float(...)]
    around a lookup returns it as it is. *)
Record Bvh : Type := {
  get_joints : result (list BvhNode);
  nframes : result Z;
  frame_time : result float;
  frame_joint_channel : Z -> string -> string -> result float
}.

(** ** The process state: file system and standard output *)

Inductive output : Type :=
| Found_joints (joint_names : list string).   (* print(f"Found joints: {joint_names}") *)

Record World : Type := {
  files : string -> result string;   (* open(path, "r") ... f.read() *)
  stdout : list output
}.

(** State and exceptions. *)
Definition M (A : Type) : Type := World -> result A * World.

Definition ret {A} (a : A) : M A := fun w => (Ok a, w).

Definition bind {A B} (c : M A) (k : A -> M B) : M B :=
  fun w => match c w with
           | (Ok a, w') => k a w'
           | (Raise e, w') => (Raise e, w')
           end.

Definition lift {A} (r : result A) : M A := fun w => (r, w).

Definition open_read (path : string) : M string := fun w => (files w path, w).

Definition print (o : output) : M unit :=
  fun w => (Ok tt, {| files := files w; stdout := stdout w ++ [o] |}).

Declare Scope py_scope.
Delimit Scope py_scope with py.
Notation "x <- c ;; k" := (bind c (fun x => k))
  (at level 61, c at next level, right associativity) : py_scope.
Notation "c ;;; k" := (bind c (fun _ => k))
  (at level 61, right associativity) : py_scope.

(** ** numpy: a row-major [float32] array *)

Definition float32 : Type := spec_float.

(** Conversion of a Python float to [np.float32]: round to nearest, ties to
    even, at 24 bits of precision; overflow gives an infinity. *)
Definition np_float32 (x : float) : float32 :=
  match Prim2SF x with
  | S754_finite s m e => binary_round 24 128 s m e
  | sf => sf
  end.

Definition is_float32 (v : float32) : bool := valid_binary 24 128 v.

(** What rounding to a binary format means.  Around a number of mantissa
    [m] and exponent [e], that is of value [m * 2 ^ e], the numbers of
    precision [prec] are the multiples of [2 ^ E], [E] being the exponent
    that the format gives to that magnitude, and none below the smallest
    exponent [3 - emax - prec].

    [v] stands for the multiple [q * 2 ^ E] with the sign [s]: a zero
    when [q] is 0, an infinity when [q * 2 ^ E] reaches [2 ^ emax], and
    otherwise a finite number of that value. *)
Definition represents (emax : Z) (s : bool) (q E : Z) (v : spec_float) : Prop :=
  (if q =? 0 then v = S754_zero s
   else if 2 ^ (emax - E) <=? q then v = S754_infinity s
   else exists m' e', v = S754_finite s m' e' /\ E <= e' /\
                      Z.pos m' * 2 ^ (e' - E) = q)%Z.

(** [v] is [x] rounded to nearest, ties to even: the multiple
    [q * 2 ^ E] that [v] stands for is within half of [2 ^ E] of the
    value of [x], and [q] is even when it is exactly half way.  Both
    values are scaled by [2 ^ k], [k] the smaller of the two exponents,
    so that the comparison is one of integers.  Zeros, infinities and
    NaN are kept. *)
Definition nearest_even (prec emax : Z) (x v : spec_float) : Prop :=
  match x with
  | S754_finite s m e =>
      (let E := Z.max (Zdigits2 (Z.pos m) + e - prec) (3 - emax - prec) in
       let k := Z.min e E in
       exists q : Z,
         0 <= q /\
         2 * Z.abs (Z.pos m * 2 ^ (e - k) - q * 2 ^ (E - k)) <= 2 ^ (E - k) /\
         (2 * Z.abs (Z.pos m * 2 ^ (e - k) - q * 2 ^ (E - k)) = 2 ^ (E - k) ->
          Z.even q = true) /\
         represents emax s q E v)%Z
  | _ => v = x
  end.

(** [np.array(frames, dtype=np.float32)] on a list of rows. *)
Definition np_array_float32 (frames : list (list float)) : list (list float32) :=
  map (map np_float32) frames.

(** ** [parse_bvh] *)

(** The returned dictionary, with its keys ["joint_names"], ["frames"] and
    ["frame_time"]. *)
Record Dataset : Type := {
  joint_names : list string;
  frames : list (list float32);
  ds_frame_time : float
}.

(** [range(n)]; empty when [n <= 0]. *)
Definition range (n : Z) : list Z := map Z.of_nat (seq 0 (Z.to_nat n)).

(** A list comprehension whose element expression can raise. *)
Fixpoint list_comp {A B} (f : A -> result B) (l : list A) : result (list B) :=
  match l with
  | [] => Ok []
  | a :: l' =>
      match f a with
      | Raise e => Raise e
      | Ok b =>
          match list_comp f l' with
          | Raise e => Raise e
          | Ok bs => Ok (b :: bs)
          end
      end
  end.

Definition root_position_channels : list string :=
  ["Xposition"; "Yposition"; "Zposition"].
Definition root_rotation_channels : list string :=
  ["Zrotation"; "Xrotation"; "Yrotation"].
Definition joint_axes : list string :=
  ["Zrotation"; "Yrotation"; "Xrotation"].

Definition root_channels : list string :=
  root_position_channels ++ root_rotation_channels.

(** Lines 53-58: the axis loop.  A value ends the loop ([break]); a
    [KeyError] moves on to the next axis; anything else propagates. *)
Fixpoint axis_loop (mocap : Bvh) (i : Z) (joint : string) (axes : list string)
    (rot_val : float) : result float :=
  match axes with
  | [] => Ok rot_val
  | axis :: axes' =>
      match frame_joint_channel mocap i joint axis with
      | Ok v => Ok v
      | Raise (KeyError _) => axis_loop mocap i joint axes' rot_val
      | Raise e => Raise e
      end
  end.

(** Lines 50-59: one value appended per joint of [joint_names[1:]]. *)
Fixpoint joints_loop (mocap : Bvh) (i : Z) (joints : list string)
    (frame : list float) : result (list float) :=
  match joints with
  | [] => Ok frame
  | joint :: joints' =>
      match axis_loop mocap i joint joint_axes 0%float with
      | Raise e => Raise e
      | Ok rot_val => joints_loop mocap i joints' (frame ++ [rot_val])
      end
  end.

(** Lines 39-59: the body of the frame loop, building [frame]. *)
Definition frame_body (mocap : Bvh) (joint_names : list string) (i : Z)
    : result (list float) :=
  let frame := [] in
  match list_comp (frame_joint_channel mocap i "Hips") root_position_channels with
  | Raise e => Raise e
  | Ok hips_pos =>
      let frame := frame ++ hips_pos in
      match list_comp (frame_joint_channel mocap i "Hips") root_rotation_channels with
      | Raise e => Raise e
      | Ok hips_rot =>
          let frame := frame ++ hips_rot in
          joints_loop mocap i (tl joint_names) frame
      end
  end.

(** Lines 38-61: the frame loop, appending to [frames]. *)
Fixpoint frames_loop (mocap : Bvh) (joint_names : list string) (idx : list Z)
    (frames : list (list float)) : result (list (list float)) :=
  match idx with
  | [] => Ok frames
  | i :: idx' =>
      match frame_body mocap joint_names i with
      | Raise e => Raise e
      | Ok frame => frames_loop mocap joint_names idx' (frames ++ [frame])
      end
  end.

(** ** Reading the result *)

(** [rows[i][c]] of the Python list of rows, and of the [float32] array. *)
Definition sample_at (rows : list (list float)) (i : Z) (c : nat) : option float :=
  match nth_error rows (Z.to_nat i) with
  | Some row => nth_error row c
  | None => None
  end.

Definition cell (d : Dataset) (i : Z) (c : nat) : option float32 :=
  match nth_error (frames d) (Z.to_nat i) with
  | Some row => nth_error row c
  | None => None
  end.

(** The Python row holds [v] at column [c] of frame [i], and the array
    holds its binary32 image there. *)
Definition emits (d : Dataset) (rows : list (list float)) (i : Z) (c : nat)
    (v : float) : Prop :=
  sample_at rows i c = Some v /\ cell d i c = Some (np_float32 v).

(** The lookup of a channel for a joint in a frame gives a sample
    ([present_at]), or raises the [KeyError] that the axis loop catches
    ([absent_at]). *)
Definition present_at (mocap : Bvh) (i : Z) (joint channel : string) : Prop :=
  exists v, frame_joint_channel mocap i joint channel = Ok v.

Definition absent_at (mocap : Bvh) (i : Z) (joint channel : string) : Prop :=
  exists msg, frame_joint_channel mocap i joint channel = Raise (KeyError msg).

(** The lookup raises, whatever the exception. *)
Definition missing_at (mocap : Bvh) (i : Z) (joint channel : string) : Prop :=
  exists e, frame_joint_channel mocap i joint channel = Raise e.

Section Parser.

(** The constructor [Bvh(text)]. *)
Variable Bvh_init : string -> result Bvh.

Local Open Scope py_scope.

Definition parse_bvh (bvh_path : string) : M Dataset :=
  text <- open_read bvh_path ;;
  mocap <- lift (Bvh_init text) ;;
  joints <- lift (get_joints mocap) ;;
  let joint_names := map name joints in
  print (Found_joints joint_names) ;;;
  n <- lift (nframes mocap) ;;
  frames <- lift (frames_loop mocap joint_names (range n) []) ;;
  let frames := np_array_float32 frames in
  frame_time <- lift (frame_time mocap) ;;
  ret {| joint_names := joint_names;
         frames := frames;
         ds_frame_time := frame_time |}.

(** The world after the joint list has been printed. *)
Definition printed (w : World) (names : list string) : World :=
  {| files := files w; stdout := stdout w ++ [Found_joints names] |}.

(** The file at [path] is readable and the package builds [mocap] from
    its text. *)
Definition loads (w : World) (path : string) (mocap : Bvh) : Prop :=
  exists text, files w path = Ok text /\ Bvh_init text = Ok mocap.

(** Modelled from the spec: the bvh package is not part of the sources.
    Its reading of the header fails when the hierarchy block is absent: on
    such a text the package raises [e], either when the object is built or
    when its joints are listed. *)
Definition header_fails (text : string) (e : exn) : Prop :=
  Bvh_init text = Raise e \/
  (exists mocap, Bvh_init text = Ok mocap /\ get_joints mocap = Raise e).

(** A valid input: the file loads, the skeleton has a root, the motion
    section declares a frame count and a frame time, every frame holds the
    six channels looked up for the root, and every rotation lookup for
    another joint either gives a sample or reports the channel missing. *)
Record valid_input (w : World) (path : string) (mocap : Bvh)
    (joints : list BvhNode) (n : Z) (ft : float) : Prop := {
  vi_loads : loads w path mocap;
  vi_joints : get_joints mocap = Ok joints;
  vi_root : joints <> [];
  vi_nframes : nframes mocap = Ok n;
  vi_count : (0 <= n)%Z;
  vi_frame_time : frame_time mocap = Ok ft;
  vi_root_channels : forall i, (0 <= i < n)%Z ->
    Forall (present_at mocap i "Hips") root_channels;
  vi_joint_channels : forall i joint, (0 <= i < n)%Z ->
    In joint (tl (map name joints)) ->
    Forall (fun c => present_at mocap i joint c \/ absent_at mocap i joint c)
           joint_axes
}.

End Parser.

(** The six root lookups of one frame, in the order of the row. *)
Definition root_samples (mocap : Bvh) (i : Z) (root : string)
    (x y z rz rx ry : float) : Prop :=
  frame_joint_channel mocap i root "Xposition" = Ok x /\
  frame_joint_channel mocap i root "Yposition" = Ok y /\
  frame_joint_channel mocap i root "Zposition" = Ok z /\
  frame_joint_channel mocap i root "Zrotation" = Ok rz /\
  frame_joint_channel mocap i root "Xrotation" = Ok rx /\
  frame_joint_channel mocap i root "Yrotation" = Ok ry.

(** ** A table-backed [Bvh] object for concrete files *)

(** Modelled from the spec: the [bvh] package is not part of the sources.
    A Joint is a name with its declared channel list. *)
Record Joint : Type := { joint_name : string; channels : list string }.

(** Modelled from the spec: the bvh package's parsed file.  The skeleton
    in declaration order, the declared frame count and frame time, and one
    row of samples per frame, the joints' channels side by side in
    skeleton order. *)
Record MotionFile : Type := {
  skeleton : list Joint;
  declared_frames : Z;
  declared_frame_time : float;
  samples : list (list float)
}.

Fixpoint index_of (c : string) (l : list string) : option nat :=
  match l with
  | [] => None
  | x :: l' => if String.eqb x c then Some O
               else option_map S (index_of c l')
  end.

(** Modelled from the spec: the bvh package's channel lookup.  The column
    of a (joint, channel) pair; a joint that lacks the channel is a
    [KeyError], the exception that line 57 of the parser catches.  The
    package as released raises [ValueError] there: see
    [package_channel_column]. *)
Fixpoint channel_column (sk : list Joint) (joint channel : string) (offset : nat)
    : result nat :=
  match sk with
  | [] => Raise (Exception "LookupError" "joint not found")
  | j :: sk' =>
      if String.eqb (joint_name j) joint then
        match index_of channel (channels j) with
        | Some k => Ok (offset + k)%nat
        | None => Raise (KeyError channel)
        end
      else channel_column sk' joint channel (offset + List.length (channels j))%nat
  end.

(** Modelled from the spec: the bvh package's [frame_joint_channel], a
    Frame being a mapping from (joint, channel) to a number. *)
Definition table_frame_joint_channel (f : MotionFile) (i : Z)
    (joint channel : string) : result float :=
  match channel_column (skeleton f) joint channel 0 with
  | Raise e => Raise e
  | Ok col =>
      match nth_error (samples f) (Z.to_nat i) with
      | None => Raise (Exception "IndexError" "list index out of range")
      | Some row =>
          match nth_error row col with
          | None => Raise (Exception "IndexError" "list index out of range")
          | Some v => Ok v
          end
      end
  end.

(** Modelled from the spec: the bvh package's object for a parsed file. *)
Definition table_bvh (f : MotionFile) : Bvh :=
  {| get_joints := Ok (map (fun j => {| name := joint_name j |}) (skeleton f));
     nframes := Ok (declared_frames f);
     frame_time := Ok (declared_frame_time f);
     frame_joint_channel := table_frame_joint_channel f |}.

(** Modelled from the spec: the bvh package's object for a text without a
    hierarchy block; no joint list can be produced. *)
Definition no_hierarchy : Bvh :=
  {| get_joints := Raise (Exception "StopIteration" "");
     nframes := Raise (Exception "LookupError" "number of frames not found");
     frame_time := Raise (Exception "LookupError" "frame time not found");
     frame_joint_channel := fun _ _ _ =>
       Raise (Exception "StopIteration" "") |}.

(** Modelled from the spec: the bvh package's constructor, on the listed
    texts. *)
Fixpoint table_Bvh_init (known : list (string * MotionFile)) (text : string)
    : result Bvh :=
  match known with
  | [] => Ok no_hierarchy
  | (t, f) :: known' =>
      if String.eqb t text then Ok (table_bvh f)
      else table_Bvh_init known' text
  end.

(** Hips, Spine (Y rotation only), Head (no rotation channel), two frames. *)
Definition three_joints : MotionFile :=
  {| skeleton :=
       [ {| joint_name := "Hips"; channels := root_channels |};
         {| joint_name := "Spine"; channels := ["Yrotation"] |};
         {| joint_name := "Head"; channels := [] |} ];
     declared_frames := 2;
     declared_frame_time := 0.25;
     samples := [ [1; 2; 3; 40; 50; 60; 7];
                  [1.5; 2.5; 3.5; 45; 55; 65; 0x1.999999999999ap-4] ]%float |}.

(** A root called Reference above a joint called Hips, one frame. *)
Definition reference_root : MotionFile :=
  {| skeleton :=
       [ {| joint_name := "Reference"; channels := root_channels |};
         {| joint_name := "Hips"; channels := root_channels |} ];
     declared_frames := 1;
     declared_frame_time := 0.25;
     samples := [ [1; 2; 3; 4; 5; 6; 10; 20; 30; 40; 50; 60] ]%float |}.

(** A root called Reference and no joint called Hips, one frame. *)
Definition no_hips : MotionFile :=
  {| skeleton :=
       [ {| joint_name := "Reference"; channels := root_channels |};
         {| joint_name := "Spine"; channels := ["Zrotation"] |} ];
     declared_frames := 1;
     declared_frame_time := 0.25;
     samples := [ [1; 2; 3; 4; 5; 6; 7] ]%float |}.

(** The root lacks its Y rotation. *)
Definition root_without_Yrotation : MotionFile :=
  {| skeleton :=
       [ {| joint_name := "Hips";
            channels := ["Xposition"; "Yposition"; "Zposition";
                         "Zrotation"; "Xrotation"] |};
         {| joint_name := "Spine"; channels := ["Zrotation"] |} ];
     declared_frames := 1;
     declared_frame_time := 0.25;
     samples := [ [1; 2; 3; 4; 5; 6] ]%float |}.

(** Hips and an Arm that declares its rotations in the order X, Y, Z,
    one frame. *)
Definition arm_three_axes : MotionFile :=
  {| skeleton :=
       [ {| joint_name := "Hips"; channels := root_channels |};
         {| joint_name := "Arm";
            channels := ["Xrotation"; "Yrotation"; "Zrotation"] |} ];
     declared_frames := 1;
     declared_frame_time := 0.25;
     samples := [ [1; 2; 3; 4; 5; 6; 70; 80; 90] ]%float |}.

(** A lone Hips that declares Z, X, Y positions and then X, Y, Z
    rotations, one frame. *)
Definition hips_other_order : MotionFile :=
  {| skeleton :=
       [ {| joint_name := "Hips";
            channels := ["Zposition"; "Xposition"; "Yposition";
                         "Xrotation"; "Yrotation"; "Zrotation"] |} ];
     declared_frames := 1;
     declared_frame_time := 0.25;
     samples := [ [3; 1; 2; 50; 60; 40] ]%float |}.

(** Three joints and a motion section that declares no frame. *)
Definition no_frames : MotionFile :=
  {| skeleton := skeleton three_joints;
     declared_frames := 0;
     declared_frame_time := 0.25;
     samples := [] |}.

Definition demo_init : string -> result Bvh :=
  table_Bvh_init [ ("three_joints", three_joints);
                   ("reference_root", reference_root);
                   ("no_hips", no_hips);
                   ("root_without_Yrotation", root_without_Yrotation);
                   ("no_frames", no_frames);
                   ("arm_three_axes", arm_three_axes);
                   ("hips_other_order", hips_other_order) ].

(** A file system holding one file per demo text, named after it. *)
Definition demo_world : World :=
  {| files := fun path =>
       match index_of path ["three_joints.bvh"; "reference_root.bvh";
                            "no_hips.bvh"; "root_without_Yrotation.bvh";
                            "no_frames.bvh"; "arm_three_axes.bvh";
                            "hips_other_order.bvh"; "motion_only.bvh"] with
       | Some _ => Ok (substring 0 (String.length path - 4) path)
       | None => Raise (FileNotFoundError path)
       end;
     stdout := [] |}.

(** ** The lookup of the [bvh] package as released *)

(** Modelled from the [bvh] package as released, which is not part of the
    sources: the channel is found with [list.index] in the joint's channel
    list, so that a channel the joint does not declare raises
    [ValueError] with the message ['<channel>' is not in list], and not a
    [KeyError]. *)
Fixpoint package_channel_column (sk : list Joint) (joint channel : string)
    (offset : nat) : result nat :=
  match sk with
  | [] => Raise (Exception "LookupError" "joint not found")
  | j :: sk' =>
      if String.eqb (joint_name j) joint then
        match index_of channel (channels j) with
        | Some k => Ok (offset + k)%nat
        | None =>
            Raise (Exception "ValueError"
                             ("'" ++ channel ++ "' is not in list")%string)
        end
      else package_channel_column sk' joint channel
             (offset + List.length (channels j))%nat
  end.

(** Modelled from the [bvh] package as released: [frame_joint_channel]. *)
Definition package_frame_joint_channel (f : MotionFile) (i : Z)
    (joint channel : string) : result float :=
  match package_channel_column (skeleton f) joint channel 0 with
  | Raise e => Raise e
  | Ok col =>
      match nth_error (samples f) (Z.to_nat i) with
      | None => Raise (Exception "IndexError" "list index out of range")
      | Some row =>
          match nth_error row col with
          | None => Raise (Exception "IndexError" "list index out of range")
          | Some v => Ok v
          end
      end
  end.

(** Modelled from the [bvh] package as released: the object for a parsed
    file. *)
Definition package_bvh (f : MotionFile) : Bvh :=
  {| get_joints := Ok (map (fun j => {| name := joint_name j |}) (skeleton f));
     nframes := Ok (declared_frames f);
     frame_time := Ok (declared_frame_time f);
     frame_joint_channel := package_frame_joint_channel f |}.

(** Modelled from the [bvh] package as released: the constructor, on the
    listed texts. *)
Fixpoint package_Bvh_init (known : list (string * MotionFile)) (text : string)
    : result Bvh :=
  match known with
  | [] => Ok no_hierarchy
  | (t, f) :: known' =>
      if String.eqb t text then Ok (package_bvh f)
      else package_Bvh_init known' text
  end.

(** Hips and a Spine that declares its Y rotation alone, one frame. *)
Definition spine_Y_only : MotionFile :=
  {| skeleton :=
       [ {| joint_name := "Hips"; channels := root_channels |};
         {| joint_name := "Spine"; channels := ["Yrotation"] |} ];
     declared_frames := 1;
     declared_frame_time := 0.25;
     samples := [ [1; 2; 3; 4; 5; 6; 7] ]%float |}.

(** Hips and a Head that declares three positions and no rotation, one
    frame. *)
Definition head_positions_only : MotionFile :=
  {| skeleton :=
       [ {| joint_name := "Hips"; channels := root_channels |};
         {| joint_name := "Head";
            channels := ["Xposition"; "Yposition"; "Zposition"] |} ];
     declared_frames := 1;
     declared_frame_time := 0.25;
     samples := [ [1; 2; 3; 4; 5; 6; 7; 8; 9] ]%float |}.

(** A root called Reference that lacks its Y rotation, above a joint
    called Hips with the six channels, one frame. *)
Definition reference_without_Yrotation : MotionFile :=
  {| skeleton :=
       [ {| joint_name := "Reference";
            channels := ["Xposition"; "Yposition"; "Zposition";
                         "Zrotation"; "Xrotation"] |};
         {| joint_name := "Hips"; channels := root_channels |} ];
     declared_frames := 1;
     declared_frame_time := 0.25;
     samples := [ [1; 2; 3; 4; 5; 10; 20; 30; 40; 50; 60] ]%float |}.

(** Hips and a Spine with a Z rotation of one tenth, which neither
    binary64 nor binary32 holds exactly, one frame. *)
Definition spine_tenth : MotionFile :=
  {| skeleton :=
       [ {| joint_name := "Hips"; channels := root_channels |};
         {| joint_name := "Spine"; channels := ["Zrotation"] |} ];
     declared_frames := 1;
     declared_frame_time := 0.25;
     samples := [ [1.5; 2.5; 3.5; 45; 55; 65; 0x1.999999999999ap-4] ]%float |}.

Definition package_init : string -> result Bvh :=
  package_Bvh_init [ ("spine_Y_only", spine_Y_only);
                     ("head_positions_only", head_positions_only);
                     ("reference_without_Yrotation", reference_without_Yrotation);
                     ("root_without_Yrotation", root_without_Yrotation);
                     ("arm_three_axes", arm_three_axes);
                     ("spine_tenth", spine_tenth) ].

Definition package_world : World :=
  {| files := fun path =>
       match index_of path ["spine_Y_only.bvh"; "head_positions_only.bvh";
                            "reference_without_Yrotation.bvh";
                            "root_without_Yrotation.bvh";
                            "arm_three_axes.bvh"; "spine_tenth.bvh"] with
       | Some _ => Ok (substring 0 (String.length path - 4) path)
       | None => Raise (FileNotFoundError path)
       end;
     stdout := [] |}.

Definition spine_tenth_dataset : Dataset :=
  {| joint_names := ["Hips"; "Spine"];
     frames := np_array_float32
                 [ [1.5; 2.5; 3.5; 45; 55; 65; 0x1.999999999999ap-4] ]%float;
     ds_frame_time := 0.25 |}.

(** * The rest of [parse_bvh.py]: saving, converting, listing *)

(** ** Python strings *)

(** [s.endswith(suffix)] *)
Fixpoint endswith (s suffix : string) : bool :=
  String.eqb s suffix ||
  match s with
  | EmptyString => false
  | String _ s' => endswith s' suffix
  end.

(** [s.lower()], on ASCII letters. *)
Definition lower_ascii (c : ascii) : ascii :=
  let n := nat_of_ascii c in
  if (65 <=? n)%nat && (n <=? 90)%nat then ascii_of_nat (n + 32) else c.

Fixpoint lower (s : string) : string :=
  match s with
  | EmptyString => EmptyString
  | String c s' => String (lower_ascii c) (lower s')
  end.

(** [old in s] *)
Fixpoint occurs (old s : string) : bool :=
  prefix old s ||
  match s with
  | EmptyString => false
  | String _ s' => occurs old s'
  end.

(** [s.replace(old, new)] for a non-empty [old]: the occurrences are
    replaced from left to right and do not overlap.  [skip] counts the
    characters of a replaced occurrence still to be passed over. *)
Fixpoint replace_from (old new : string) (skip : nat) (s : string) : string :=
  match s with
  | EmptyString => EmptyString
  | String c s' =>
      match skip with
      | S k => replace_from old new k s'
      | O =>
          if prefix old s
          then (new ++ replace_from old new (String.length old - 1) s')%string
          else String c (replace_from old new 0 s')
      end
  end.

(** [s.replace("", new)] puts [new] before every character and at the end. *)
Fixpoint replace_empty (new s : string) : string :=
  match s with
  | EmptyString => new
  | String c s' => (new ++ String c (replace_empty new s'))%string
  end.

Definition replace (s old new : string) : string :=
  match old with
  | EmptyString => replace_empty new s
  | _ => replace_from old new 0 s
  end.

(** The default output path of lines 98 and 136:
    [bvh_path.replace(".bvh", "_parsed.npy")]. *)
Definition default_output_path (bvh_path : string) : string :=
  replace bvh_path ".bvh" "_parsed.npy".

(** [output_path or default]: [None] and the empty string are falsy. *)
Definition or_default (output_path : option string) (default : string) : string :=
  match output_path with
  | Some p => if String.eqb p "" then default else p
  | None => default
  end.

(** [np.save] appends ".npy" to a file name that lacks it. *)
Definition np_save_name (file : string) : string :=
  if endswith file ".npy" then file else (file ++ ".npy")%string.

(** ** [get_available_bvh_files] *)

(** [os.path.join(a, b)] of [posixpath]. *)
Definition os_path_join (a b : string) : string :=
  if prefix "/" b then b
  else if String.eqb a "" || endswith a "/" then (a ++ b)%string
  else (a ++ "/" ++ b)%string.

(** The test of line 119: [file.lower().endswith('.bvh')]. *)
Definition is_bvh_name (file : string) : bool := endswith (lower file) ".bvh".

(** Lines 118-120: the loop over the file names of one directory. *)
Fixpoint files_loop (root : string) (files : list string) (bvh_files : list string)
    : list string :=
  match files with
  | [] => bvh_files
  | file :: files' =>
      files_loop root files'
        (if is_bvh_name file then bvh_files ++ [os_path_join root file]
         else bvh_files)
  end.

(** Lines 117-120: the loop over the triples that [os.walk] yields. *)
Fixpoint walk_loop (entries : list (string * list string * list string))
    (bvh_files : list string) : list string :=
  match entries with
  | [] => bvh_files
  | (root, dirs, files) :: entries' =>
      walk_loop entries' (files_loop root files bvh_files)
  end.

(** [os_walk] gives the triples [(root, dirs, files)] that
    [os.walk(base_path)] yields, in order. *)
Definition get_available_bvh_files
    (os_walk : string -> list (string * list string * list string))
    (base_path : option string) : list string :=
  let base_path := match base_path with Some p => p | None => "motion_priors" end in
  walk_loop (os_walk base_path) [].

(** ** The host: files on disk and the console *)

(** What a path holds: a text file, something that exists but cannot be
    read as text (a directory, a file without permission), or a file
    written by [np.save]. *)
Inductive node : Type :=
| Text (content : string)
| Unreadable (e : exn)
| Npy (data : Dataset).

(** The lines printed by [parse_bvh] and by [save_as_npy]. *)
Inductive line : Type :=
| Parser_line (o : output)
| Saved_line (output_path : string)      (* "Saved parsed data to {output_path}" *)
| Shape_line (shape : list nat)          (* "   Shape: {data['frames'].shape}" *)
| Joints_line (joints : nat) (duration : float).
                          (* "   Joints: {...} | Duration: {...:.2f}s" *)

(** Paths are compared as strings.  [write_error] is the exception that
    creating the path for writing raises, if any; [npy_as_text] is what
    reading a saved file as text gives. *)
Record Host : Type := {
  disk : string -> option node;
  write_error : string -> option exn;
  npy_as_text : Dataset -> result string;
  console : list line
}.

Definition H (A : Type) : Type := Host -> result A * Host.

Definition ret_H {A} (a : A) : H A := fun h => (Ok a, h).

Definition bind_H {A B} (c : H A) (k : A -> H B) : H B :=
  fun h => match c h with
           | (Ok a, h') => k a h'
           | (Raise e, h') => (Raise e, h')
           end.

Definition raise_H {A} (e : exn) : H A := fun h => (Raise e, h).

Definition lift_H {A} (r : result A) : H A := fun h => (r, h).

Declare Scope host_scope.
Delimit Scope host_scope with host.
Notation "x <- c ;; k" := (bind_H c (fun x => k))
  (at level 61, c at next level, right associativity) : host_scope.
Notation "c ;;; k" := (bind_H c (fun _ => k))
  (at level 61, right associativity) : host_scope.

(** [open(path, "r")] and [f.read()]. *)
Definition read_text (h : Host) (path : string) : result string :=
  match disk h path with
  | None => Raise (FileNotFoundError path)
  | Some (Text content) => Ok content
  | Some (Unreadable e) => Raise e
  | Some (Npy data) => npy_as_text h data
  end.

(** The world that [parse_bvh] sees, and its run on the host: the lines it
    prints go to the console. *)
Definition world_of (h : Host) : World :=
  {| files := read_text h; stdout := [] |}.

Definition run_parser {A} (c : M A) : H A :=
  fun h => let (r, w) := c (world_of h) in
           (r, {| disk := disk h;
                  write_error := write_error h;
                  npy_as_text := npy_as_text h;
                  console := console h ++ map Parser_line (stdout w) |}).

Definition os_path_exists (path : string) : H bool :=
  fun h => (Ok (match disk h path with Some _ => true | None => false end), h).

Definition print_line (l : line) : H unit :=
  fun h => (Ok tt, {| disk := disk h;
                      write_error := write_error h;
                      npy_as_text := npy_as_text h;
                      console := console h ++ [l] |}).

(** [np.save(file, data)]: the file is created under [np_save_name file]
    and holds the pickled dictionary. *)
Definition np_save (file : string) (data : Dataset) : H unit :=
  fun h =>
    let name := np_save_name file in
    match write_error h name with
    | Some e => (Raise e, h)
    | None =>
        (Ok tt, {| disk := fun p => if String.eqb p name then Some (Npy data)
                                    else disk h p;
                   write_error := write_error h;
                   npy_as_text := npy_as_text h;
                   console := console h |})
    end.

(** [a.shape] of an array built from a list of rows of one width. *)
Definition shape (a : list (list float32)) : list nat :=
  match a with
  | [] => [O]
  | row :: _ => [List.length a; List.length row]
  end.

(** [float(n)] of a row count. *)
Definition float_of_nat (n : nat) : float :=
  PrimFloat.of_uint63 (Uint63.of_Z (Z.of_nat n)).

(** ** [save_as_npy], [convert_bvh_to_npy], [main] *)

Definition save_as_npy (data : Dataset) (output_path : string) : H unit :=
  (np_save output_path data ;;;
   print_line (Saved_line output_path) ;;;
   print_line (Shape_line (shape (frames data))) ;;;
   print_line (Joints_line (List.length (joint_names data))
                 (PrimFloat.mul (float_of_nat (nth 0 (shape (frames data)) O))
                                (ds_frame_time data))))%host.

(** What [parser.parse_args()] returns: [args.input_bvh] and [args.output]. *)
Record Namespace : Type := { input_bvh : string; output' : option string }.

Section Converter.

Variable Bvh_init : string -> result Bvh.

Local Open Scope host_scope.

Definition convert_bvh_to_npy (bvh_path : string) (output_path : option string)
    : H Dataset :=
  found <- os_path_exists bvh_path ;;
  if negb found
  then raise_H (FileNotFoundError ("BVH file not found: " ++ bvh_path)%string)
  else
    data <- run_parser (parse_bvh Bvh_init bvh_path) ;;
    let output_path :=
      or_default output_path (replace bvh_path ".bvh" "_parsed.npy") in
    save_as_npy data output_path ;;;
    ret_H data.

(** [parse_args] is the outcome of [parser.parse_args()]. *)
Definition main (parse_args : result Namespace) : H unit :=
  args <- lift_H parse_args ;;
  found <- os_path_exists (input_bvh args) ;;
  if negb found
  then raise_H (FileNotFoundError
                  ("BVH file not found: " ++ input_bvh args)%string)
  else
    data <- run_parser (parse_bvh Bvh_init (input_bvh args)) ;;
    let output_path :=
      or_default (output' args) (replace (input_bvh args) ".bvh" "_parsed.npy") in
    save_as_npy data output_path.

End Converter.

(** The host after more lines have been printed, and after a file has
    been saved. *)
Definition logged (h : Host) (ls : list line) : Host :=
  {| disk := disk h;
     write_error := write_error h;
     npy_as_text := npy_as_text h;
     console := console h ++ ls |}.

Definition stored (h : Host) (name : string) (data : Dataset) : Host :=
  {| disk := fun p => if String.eqb p name then Some (Npy data) else disk h p;
     write_error := write_error h;
     npy_as_text := npy_as_text h;
     console := console h |}.

(** The lines that [save_as_npy] prints. *)
Definition save_lines (data : Dataset) (output_path : string) : list line :=
  [ Saved_line output_path;
    Shape_line (shape (frames data));
    Joints_line (List.length (joint_names data))
      (PrimFloat.mul (float_of_nat (List.length (frames data)))
                     (ds_frame_time data)) ].

(** A file with a negative frame count, one whose only row of samples
    stops before the channel of Spine, and one that declares two frames
    and holds one. *)
Definition negative_frames : MotionFile :=
  {| skeleton := skeleton three_joints;
     declared_frames := -3;
     declared_frame_time := 0.25;
     samples := [] |}.

Definition short_row : MotionFile :=
  {| skeleton :=
       [ {| joint_name := "Hips"; channels := root_channels |};
         {| joint_name := "Spine"; channels := ["Zrotation"] |} ];
     declared_frames := 1;
     declared_frame_time := 0.25;
     samples := [ [1; 2; 3; 4; 5; 6] ]%float |}.

Definition missing_frame : MotionFile :=
  {| skeleton := skeleton three_joints;
     declared_frames := 2;
     declared_frame_time := 0.25;
     samples := [ [1; 2; 3; 40; 50; 60; 7] ]%float |}.

(** Two joints called Arm. *)
Definition two_arms : MotionFile :=
  {| skeleton :=
       [ {| joint_name := "Hips"; channels := root_channels |};
         {| joint_name := "Arm"; channels := ["Zrotation"] |};
         {| joint_name := "Arm"; channels := ["Zrotation"] |} ];
     declared_frames := 1;
     declared_frame_time := 0.25;
     samples := [ [1; 2; 3; 4; 5; 6; 70; 80] ]%float |}.

Definition edge_init : string -> result Bvh :=
  table_Bvh_init [ ("negative_frames", negative_frames);
                   ("short_row", short_row);
                   ("missing_frame", missing_frame);
                   ("two_arms", two_arms) ].

Definition edge_world : World :=
  {| files := fun path =>
       match index_of path ["negative_frames.bvh"; "short_row.bvh";
                            "missing_frame.bvh"; "two_arms.bvh"] with
       | Some _ => Ok (substring 0 (String.length path - 4) path)
       | None => Raise (FileNotFoundError path)
       end;
     stdout := [] |}.

(** The demo files on a host, with a BVH text stored under a name in
    ".npy", one under an upper-case extension, and a directory that
    cannot be written. *)
Definition demo_host : Host :=
  {| disk := fun path =>
       if String.eqb path "capture.npy" then Some (Text "three_joints")
       else if String.eqb path "WALK.BVH" then Some (Text "arm_three_axes")
       else match files demo_world path with
            | Ok content => Some (Text content)
            | Raise _ => None
            end;
     write_error := fun path =>
       if prefix "/readonly/" path
       then Some (Exception "PermissionError" path)
       else None;
     npy_as_text := fun _ => Raise (Exception "UnicodeDecodeError" "");
     console := [] |}.

(** The datasets and hosts of the runs below. *)
Definition three_joints_dataset : Dataset :=
  {| joint_names := ["Hips"; "Spine"; "Head"];
     frames := np_array_float32
                 [ [1; 2; 3; 40; 50; 60; 7; 0];
                   [1.5; 2.5; 3.5; 45; 55; 65; 0x1.999999999999ap-4; 0] ]%float;
     ds_frame_time := 0.25 |}.

Definition no_frames_dataset : Dataset :=
  {| joint_names := ["Hips"; "Spine"; "Head"]; frames := [];
     ds_frame_time := 0.25 |}.

Definition no_frames_saved : Host :=
  logged (stored (logged demo_host
                    [Parser_line (Found_joints ["Hips"; "Spine"; "Head"])])
                 "out.npy" no_frames_dataset)
         (save_lines no_frames_dataset "out").

Definition capture_saved : Host :=
  logged (stored (logged demo_host
                    [Parser_line (Found_joints ["Hips"; "Spine"; "Head"])])
                 "capture.npy" three_joints_dataset)
         (save_lines three_joints_dataset "capture.npy").

Definition two_arms_dataset : Dataset :=
  {| joint_names := ["Hips"; "Arm"; "Arm"];
     frames := np_array_float32 [ [1; 2; 3; 4; 5; 6; 70; 70] ]%float;
     ds_frame_time := 0.25 |}.

Definition three_joints_nodes : list BvhNode :=
  [ {| name := "Hips" |}; {| name := "Spine" |}; {| name := "Head" |} ].

(** Tactics for the lookups of a concrete file. *)
Ltac present_or_absent :=
  first [ left; eexists; reflexivity | right; eexists; reflexivity ].

Ltac each_channel tac :=
  cbv [root_channels root_position_channels root_rotation_channels
       joint_axes app];
  repeat (apply Forall_cons; [tac|]); apply Forall_nil.

(** * Properties *)

(** ** Concrete runs *)

Example np_float32_half : np_float32 0.5 = S754_finite false 8388608 (-24).
Proof. vm_compute. reflexivity. Qed.

(** The double nearest to one tenth is not a binary32 number; it is stored
    as [13421773 * 2^-27]. *)
Example np_float32_tenth :
  np_float32 0x1.999999999999ap-4 = S754_finite false 13421773 (-27).
Proof. vm_compute. reflexivity. Qed.

Example np_float32_overflow : np_float32 0x1p200 = S754_infinity false.
Proof. vm_compute. reflexivity. Qed.

Example parse_three_joints :
  fst (parse_bvh demo_init "three_joints.bvh" demo_world) =
  Ok {| joint_names := ["Hips"; "Spine"; "Head"];
        frames := np_array_float32
                    [ [1; 2; 3; 40; 50; 60; 7; 0];
                      [1.5; 2.5; 3.5; 45; 55; 65; 0x1.999999999999ap-4; 0] ]%float;
        ds_frame_time := 0.25 |}.
Proof. vm_compute. reflexivity. Qed.

(** All three rotations present: the Z sample is kept. *)
Example parse_arm_three_axes :
  fst (parse_bvh demo_init "arm_three_axes.bvh" demo_world) =
  Ok {| joint_names := ["Hips"; "Arm"];
        frames := np_array_float32 [ [1; 2; 3; 4; 5; 6; 90] ]%float;
        ds_frame_time := 0.25 |}.
Proof. vm_compute. reflexivity. Qed.

Example parse_missing_file :
  fst (parse_bvh demo_init "walk.bvh" demo_world) =
  Raise (FileNotFoundError "walk.bvh").
Proof. vm_compute. reflexivity. Qed.

(** ** The loops *)

Lemma list_comp_Ok {A B} (f : A -> result B) l bs :
  list_comp f l = Ok bs <-> Forall2 (fun a b => f a = Ok b) l bs.
Proof.
  revert bs; induction l as [|a l IH]; intros bs; simpl.
  - split; intros H.
    + injection H as <-. constructor.
    + inversion H. reflexivity.
  - split; intros H.
    + destruct (f a) as [b|e] eqn:Ea; [|discriminate].
      destruct (list_comp f l) as [bs'|e] eqn:El; [|discriminate].
      injection H as <-. constructor; [exact Ea|]. apply IH. reflexivity.
    + inversion H as [|a' b l' bs' Ha Hl]; subst.
      rewrite Ha. apply IH in Hl. rewrite Hl. reflexivity.
Qed.

(** A failing comprehension raises the exception of its first failing
    element. *)
Lemma list_comp_Raise {A B} (f : A -> result B) l e :
  list_comp f l = Raise e <->
  exists pre a post, l = pre ++ a :: post /\ f a = Raise e /\
                     Forall (fun x => is_ok (f x) = true) pre.
Proof.
  induction l as [|a l IH]; simpl.
  - split; [discriminate|]. intros (pre & a & post & H & _).
    destruct pre; discriminate.
  - split.
    + destruct (f a) as [b|e'] eqn:Ea.
      * destruct (list_comp f l) as [bs|e'] eqn:El; [discriminate|].
        intros H; injection H as ->.
        destruct (proj1 IH eq_refl) as (pre & a' & post & -> & Ha' & Hpre).
        exists (a :: pre), a', post. repeat split; [exact Ha'|].
        constructor; [rewrite Ea; reflexivity | exact Hpre].
      * intros H; injection H as ->. exists [], a, l. repeat split; [exact Ea|].
        constructor.
    + intros (pre & a' & post & Hl & Ha' & Hpre).
      destruct pre as [|p pre]; simpl in Hl; injection Hl as Hp Hl; subst.
      * rewrite Ha'. reflexivity.
      * inversion Hpre as [|? ? Hp Hpre']; subst.
        destruct (f p) as [b|?]; [|discriminate].
        assert (El : list_comp f (pre ++ a' :: post) = Raise e).
        { apply IH. exists pre, a', post. auto. }
        rewrite El. reflexivity.
Qed.

Lemma axis_loop_value mocap i joint pre axis post d v :
  Forall (absent_at mocap i joint) pre ->
  frame_joint_channel mocap i joint axis = Ok v ->
  axis_loop mocap i joint (pre ++ axis :: post) d = Ok v.
Proof.
  intros Hpre Hv. induction Hpre as [|a pre [msg Ha] _ IH]; simpl.
  - rewrite Hv. reflexivity.
  - rewrite Ha. exact IH.
Qed.

Lemma axis_loop_default mocap i joint axes d :
  Forall (absent_at mocap i joint) axes ->
  axis_loop mocap i joint axes d = Ok d.
Proof.
  intros H. induction H as [|a axes [msg Ha] _ IH]; simpl.
  - reflexivity.
  - rewrite Ha. exact IH.
Qed.

(** The axis loop returns when every lookup gives a sample or a KeyError. *)
Lemma axis_loop_total mocap i joint axes d :
  Forall (fun c => present_at mocap i joint c \/ absent_at mocap i joint c) axes ->
  exists v, axis_loop mocap i joint axes d = Ok v.
Proof.
  intros H. induction H as [|a axes [[v Ha]|[msg Ha]] _ IH]; simpl.
  - eexists; reflexivity.
  - rewrite Ha. eexists; reflexivity.
  - rewrite Ha. exact IH.
Qed.

Lemma joints_loop_Ok mocap i joints frame out :
  joints_loop mocap i joints frame = Ok out <->
  exists vals, out = frame ++ vals /\
    Forall2 (fun j v => axis_loop mocap i j joint_axes 0%float = Ok v) joints vals.
Proof.
  revert frame; induction joints as [|j joints IH]; intros frame;
    cbn [joints_loop].
  - split.
    + intros H; injection H as <-. exists []. rewrite app_nil_r.
      split; [reflexivity | constructor].
    + intros (vals & -> & H). inversion H. rewrite app_nil_r. reflexivity.
  - split.
    + destruct (axis_loop mocap i j joint_axes 0%float) as [v|e] eqn:Ev;
        [|discriminate].
      intros H. apply IH in H. destruct H as (vals & -> & Hv).
      exists (v :: vals). rewrite <- app_assoc. split; [reflexivity|].
      constructor; assumption.
    + intros (vals & -> & H). inversion H as [|j' v js vs Hj Hjs]; subst.
      rewrite Hj. apply IH. exists vs. rewrite <- app_assoc.
      split; [reflexivity | assumption].
Qed.

Lemma frames_loop_Ok mocap names idx acc out :
  frames_loop mocap names idx acc = Ok out <->
  exists rows, out = acc ++ rows /\
    Forall2 (fun i row => frame_body mocap names i = Ok row) idx rows.
Proof.
  revert acc; induction idx as [|i idx IH]; intros acc; cbn [frames_loop].
  - split.
    + intros H; injection H as <-. exists []. rewrite app_nil_r.
      split; [reflexivity | constructor].
    + intros (rows & -> & H). inversion H. rewrite app_nil_r. reflexivity.
  - split.
    + destruct (frame_body mocap names i) as [row|e] eqn:Er; [|discriminate].
      intros H. apply IH in H. destruct H as (rows & -> & Hr).
      exists (row :: rows). rewrite <- app_assoc. split; [reflexivity|].
      constructor; assumption.
    + intros (rows & -> & H). inversion H as [|i' r idx' rs Hi His]; subst.
      rewrite Hi. apply IH. exists rs. rewrite <- app_assoc.
      split; [reflexivity | assumption].
Qed.

(** The frame loop stops at the first frame whose body raises. *)
Lemma frames_loop_Raise_first mocap names i idx acc e :
  frame_body mocap names i = Raise e ->
  frames_loop mocap names (i :: idx) acc = Raise e.
Proof. intros H. cbn [frames_loop]. rewrite H. reflexivity. Qed.

Lemma frame_body_Ok mocap names i row :
  frame_body mocap names i = Ok row <->
  exists x y z rz rx ry vals,
    root_samples mocap i "Hips" x y z rz rx ry /\
    Forall2 (fun j v => axis_loop mocap i j joint_axes 0%float = Ok v)
            (tl names) vals /\
    row = [x; y; z; rz; rx; ry] ++ vals.
Proof.
  unfold frame_body, root_samples. split.
  - destruct (list_comp _ root_position_channels) as [pos|] eqn:Ep; [|discriminate].
    destruct (list_comp _ root_rotation_channels) as [rot|] eqn:Er; [|discriminate].
    intros H. apply joints_loop_Ok in H. destruct H as (vals & -> & Hv).
    apply list_comp_Ok in Ep, Er. unfold root_position_channels in Ep.
    unfold root_rotation_channels in Er.
    repeat match goal with
           | H : Forall2 _ (_ :: _) _ |- _ => inversion H; clear H; subst
           | H : Forall2 _ [] _ |- _ => inversion H; clear H; subst
           end.
    do 6 eexists. exists vals. repeat split; eassumption.
  - intros (x & y & z & rz & rx & ry & vals & (Hx & Hy & Hz & Hrz & Hrx & Hry)
            & Hv & ->).
    assert (Ep : list_comp (frame_joint_channel mocap i "Hips")
                   root_position_channels = Ok [x; y; z]).
    { apply list_comp_Ok. repeat constructor; assumption. }
    assert (Er : list_comp (frame_joint_channel mocap i "Hips")
                   root_rotation_channels = Ok [rz; rx; ry]).
    { apply list_comp_Ok. repeat constructor; assumption. }
    rewrite Ep, Er. apply joints_loop_Ok. exists vals. split; [reflexivity|].
    exact Hv.
Qed.

Lemma Forall2_length_eq {A B} (P : A -> B -> Prop) l l' :
  Forall2 P l l' -> List.length l' = List.length l.
Proof. induction 1; simpl; congruence. Qed.

Lemma Forall2_nth_error {A B} (P : A -> B -> Prop) l l' k a :
  Forall2 P l l' -> nth_error l k = Some a ->
  exists b, nth_error l' k = Some b /\ P a b.
Proof.
  intros H; revert k; induction H as [|x y l l' Hxy _ IH]; intros k Hk.
  - destruct k; discriminate.
  - destruct k as [|k]; simpl in *.
    + injection Hk as ->. exists y. split; [reflexivity | exact Hxy].
    + apply IH. exact Hk.
Qed.

Lemma length_range n : List.length (range n) = Z.to_nat n.
Proof. unfold range. rewrite length_map, length_seq. reflexivity. Qed.

Lemma nth_error_range n i :
  (0 <= i < n)%Z -> nth_error (range n) (Z.to_nat i) = Some i.
Proof.
  intros H. unfold range. rewrite nth_error_map.
  rewrite nth_error_seq.
  destruct (Nat.ltb_spec (Z.to_nat i) (Z.to_nat n)) as [_|Hle]; [|lia].
  simpl. f_equal. lia.
Qed.

Lemma range_cons n : (1 <= n)%Z -> exists idx, range n = 0%Z :: idx.
Proof.
  intros H. unfold range. destruct (Z.to_nat n) as [|k] eqn:E; [lia|].
  simpl. eexists; reflexivity.
Qed.

Lemma range_nonpos n : (n <= 0)%Z -> range n = [].
Proof.
  intros H. unfold range. replace (Z.to_nat n) with O by lia. reflexivity.
Qed.

Lemma Forall2_total {A B} (P : A -> B -> Prop) l :
  Forall (fun a => exists b, P a b) l -> exists l', Forall2 P l l'.
Proof.
  induction 1 as [|a l [b Hb] _ [l' IH]].
  - exists []. constructor.
  - exists (b :: l'). constructor; assumption.
Qed.

Lemma In_range n i : In i (range n) -> (0 <= i < n)%Z.
Proof.
  unfold range. rewrite in_map_iff. intros (k & <- & Hk).
  apply in_seq in Hk. lia.
Qed.

(** The value emitted for one non-root joint, read off a row. *)
Lemma frame_body_joint mocap names i row k joint :
  frame_body mocap names i = Ok row ->
  nth_error names (S k) = Some joint ->
  exists v, nth_error row (6 + k) = Some v /\
            axis_loop mocap i joint joint_axes 0%float = Ok v.
Proof.
  intros Hrow Hj. apply frame_body_Ok in Hrow.
  destruct Hrow as (x & y & z & rz & rx & ry & vals & _ & Hv & ->).
  assert (Hj' : nth_error (tl names) k = Some joint).
  { destruct names; [destruct k; discriminate | exact Hj]. }
  destruct (Forall2_nth_error _ _ _ _ _ Hv Hj') as (v & Hk & Hax).
  exists v. split; [exact Hk | exact Hax].
Qed.

Lemma frame_body_width mocap names i row :
  frame_body mocap names i = Ok row ->
  List.length row = (6 + List.length (tl names))%nat.
Proof.
  intros Hrow. apply frame_body_Ok in Hrow.
  destruct Hrow as (x & y & z & rz & rx & ry & vals & _ & Hv & ->).
  apply Forall2_length_eq in Hv. simpl. rewrite Hv. reflexivity.
Qed.

Lemma sample_at_float32 d rows i c :
  frames d = np_array_float32 rows ->
  cell d i c = option_map np_float32 (sample_at rows i c).
Proof.
  intros E. unfold cell, sample_at, np_array_float32 in *. rewrite E.
  rewrite nth_error_map. destruct (nth_error rows (Z.to_nat i)) as [row|]; simpl.
  - rewrite nth_error_map. reflexivity.
  - reflexivity.
Qed.

(** ** Rounding to a binary format

    [binary_round] always lands in the format: whatever mantissa and
    exponent it is given, the result is a canonical number of precision
    [prec], a zero or an infinity. *)

Section Rounding.

Local Open Scope Z_scope.
Variables prec emax : Z.

Lemma digits2_pos_log2 p : Zpos (digits2_pos p) = Z.log2 (Zpos p) + 1.
Proof.
  assert (H : forall q, digits2_pos q = Pos.size q).
  { induction q; simpl; congruence. }
  rewrite H. destruct p; simpl; lia.
Qed.

Lemma Zdigits2_log2 m : 0 < m -> Zdigits2 m = Z.log2 m + 1.
Proof.
  destruct m as [|p|p]; try lia. intros _. apply digits2_pos_log2.
Qed.

Lemma shr_1_div2 mrs : 0 <= shr_m mrs -> shr_m (shr_1 mrs) = shr_m mrs / 2.
Proof.
  destruct mrs as [m r s]. cbn [shr_m]. intros H.
  rewrite <- Z.div2_div.
  destruct m as [|[p|p|]|p]; try reflexivity. lia.
Qed.

Lemma iter_shr_1_div p : forall mrs,
  0 <= shr_m mrs -> shr_m (iter_pos shr_1 p mrs) = shr_m mrs / 2 ^ Zpos p.
Proof.
  induction p as [p IH|p IH|]; intros mrs H; simpl iter_pos.
  - assert (H1 : 0 <= shr_m (shr_1 mrs)).
    { rewrite shr_1_div2 by exact H. apply Z.div_pos; lia. }
    assert (H2 : 0 <= shr_m (iter_pos shr_1 p (shr_1 mrs))).
    { rewrite IH by exact H1. apply Z.div_pos; [exact H1|]. apply Z.pow_pos_nonneg; lia. }
    rewrite IH by exact H2. rewrite IH by exact H1. rewrite shr_1_div2 by exact H.
    rewrite !Z.div_div by (try apply Z.pow_pos_nonneg; lia).
    f_equal. replace (Z.pos p~1) with (1 + Z.pos p + Z.pos p) by lia.
    rewrite !Z.pow_add_r by lia. change (2 ^ 1) with 2. ring.
  - assert (H2 : 0 <= shr_m (iter_pos shr_1 p mrs)).
    { rewrite IH by exact H. apply Z.div_pos; [exact H|]. apply Z.pow_pos_nonneg; lia. }
    rewrite IH by exact H2. rewrite IH by exact H.
    rewrite !Z.div_div by (try apply Z.pow_pos_nonneg; lia).
    f_equal. replace (Z.pos p~0) with (Z.pos p + Z.pos p) by lia.
    rewrite !Z.pow_add_r by lia. reflexivity.
  - apply shr_1_div2. exact H.
Qed.

Lemma shr_record_of_loc_m m l : shr_m (shr_record_of_loc m l) = m.
Proof. destruct l as [|[]]; reflexivity. Qed.

(** What [shr_fexp] does to the mantissa and the exponent. *)
Lemma shr_fexp_spec m e l :
  0 <= m ->
  let n := fexp prec emax (Zdigits2 m + e) - e in
  (n <= 0 /\ shr_m (fst (shr_fexp prec emax m e l)) = m /\
             snd (shr_fexp prec emax m e l) = e) \/
  (0 < n /\ shr_m (fst (shr_fexp prec emax m e l)) = m / 2 ^ n /\
            snd (shr_fexp prec emax m e l) = e + n).
Proof.
  intros Hm n. unfold shr_fexp. fold n. unfold shr.
  destruct n as [|p|p] eqn:En.
  - left. simpl. rewrite shr_record_of_loc_m. lia.
  - right. simpl. rewrite iter_shr_1_div by (rewrite shr_record_of_loc_m; exact Hm).
    rewrite shr_record_of_loc_m. lia.
  - left. simpl. rewrite shr_record_of_loc_m. lia.
Qed.

Lemma round_nearest_even_range m l :
  round_nearest_even m l = m \/ round_nearest_even m l = m + 1.
Proof.
  unfold round_nearest_even. destruct l as [|[]]; auto.
  destruct (Z.even m); auto.
Qed.

(** A mantissa shifted right by the distance to its exponent stays
    canonical as long as it is not shifted out. *)
Lemma shifted_digits m n :
  0 < m -> 0 < n -> 0 < m / 2 ^ n ->
  Zdigits2 (m / 2 ^ n) = Zdigits2 m - n.
Proof.
  intros Hm Hn Hq. rewrite !Zdigits2_log2 by assumption.
  rewrite <- Z.shiftr_div_pow2 by lia.
  rewrite Z.log2_shiftr by exact Hm.
  assert (n <= Z.log2 m); [|lia].
  destruct (Z.le_gt_cases n (Z.log2 m)) as [|Hlt]; [assumption|exfalso].
  assert (m < 2 ^ n).
  { apply Z.log2_lt_pow2; assumption. }
  rewrite Z.div_small in Hq by lia. lia.
Qed.

Lemma fexp_mono a b : a <= b -> fexp prec emax a <= fexp prec emax b.
Proof. unfold fexp. lia. Qed.

Lemma Zdigits2_mono a b : 0 < a -> a <= b -> Zdigits2 a <= Zdigits2 b.
Proof.
  intros Ha Hab. rewrite !Zdigits2_log2 by lia.
  pose proof (Z.log2_le_mono a b Hab). lia.
Qed.

Lemma shifted_out m n : 0 < m -> 0 < n -> m / 2 ^ n = 0 -> Zdigits2 m <= n.
Proof.
  intros Hm Hn Hq. rewrite Zdigits2_log2 by exact Hm.
  assert (m < 2 ^ n).
  { apply Z.div_small_iff in Hq; [|apply Z.pow_nonzero; lia]. lia. }
  assert (Z.log2 m < n) by (apply Z.log2_lt_pow2; assumption). lia.
Qed.

(** Rounding a positive mantissa whose exponent is not above the one its
    magnitude calls for gives a canonical result. *)
Lemma binary_round_aux_valid s m e l :
  0 < m -> e <= fexp prec emax (Zdigits2 m + e) ->
  valid_binary prec emax (binary_round_aux prec emax s m e l) = true.
Proof.
  intros Hm He. unfold binary_round_aux.
  pose proof (shr_fexp_spec m e l (Z.lt_le_incl _ _ Hm)) as S1.
  destruct (shr_fexp prec emax m e l) as [mrs' e'].
  cbn [fst snd] in S1. cbv zeta in S1.
  remember (Zdigits2 m + e) as E eqn:HE.
  remember (shr_m mrs') as m' eqn:Hm'def.
  remember (round_nearest_even m' (loc_of_shr_record mrs')) as m1 eqn:Hm1def.
  assert (F1 : e' = fexp prec emax E /\ 0 <= m' /\
               (0 < m' -> Zdigits2 m' + e' = E) /\ (m' = 0 -> E <= e')).
  { destruct S1 as [(Hn & Hm' & He')|(Hn & Hm' & He')].
    - rewrite Hm', He'. repeat split; lia.
    - assert (0 <= m / 2 ^ (fexp prec emax E - e)).
      { apply Z.div_pos; [lia|]. apply Z.pow_pos_nonneg; lia. }
      rewrite Hm', He'. repeat split; try lia.
      + intros Hq. rewrite shifted_digits by assumption. lia.
      + intros Hq. pose proof (shifted_out m _ Hm Hn Hq). lia. }
  destruct F1 as (He' & Hm'0 & Hpos & Hzero). clear S1.
  assert (Hm1 : m1 = m' \/ m1 = m' + 1)
    by (rewrite Hm1def; apply round_nearest_even_range).
  assert (Hm1_0 : 0 <= m1) by lia.
  pose proof (shr_fexp_spec m1 e' loc_Exact Hm1_0) as S2.
  destruct (shr_fexp prec emax m1 e' loc_Exact) as [mrs'' e''].
  cbn [fst snd] in S2. cbv zeta in S2.
  destruct (shr_m mrs'') as [|p|p] eqn:Ep; try reflexivity.
  destruct (Z.leb_spec e'' (emax - prec)) as [Hle|Hgt]; [|reflexivity].
  unfold valid_binary, bounded, canonical_mantissa.
  apply andb_true_intro. split; [|apply Z.leb_le; exact Hle].
  apply Z.eqb_eq. change (Z.pos (digits2_pos p)) with (Zdigits2 (Z.pos p)).
  destruct S2 as [(Hn & Hm'' & He'')|(Hn & Hm'' & He'')].
  - (* no second shift *)
    rewrite He''. rewrite Hm''.
    assert (0 < m1) by lia.
    assert (e' <= fexp prec emax (Zdigits2 m1 + e')); [|lia].
    destruct (Z.eq_dec m' 0) as [Hz|Hnz].
    + assert (H1 : m1 = 1) by lia. rewrite H1.
      specialize (Hzero Hz). change (Zdigits2 1) with 1.
      unfold fexp in *. lia.
    + assert (0 < m') by lia.
      pose proof (Zdigits2_mono m' m1 ltac:(lia) ltac:(lia)).
      specialize (Hpos ltac:(lia)).
      rewrite He' at 1. apply fexp_mono. lia.
  - (* second shift *)
    assert (0 < m1).
    { destruct (Z.eq_dec m1 0) as [Hz|]; [|lia].
      rewrite Hz in Hm'', Hn. rewrite Z.div_0_l in Hm''; [lia|].
      apply Z.pow_nonzero; lia. }
    rewrite Hm''. rewrite shifted_digits by (try assumption; lia).
    rewrite He''. replace (Zdigits2 m1 - _ + _) with (Zdigits2 m1 + e') by lia.
    lia.
Qed.

Lemma iter_xO_pow2 m d : Z.pos (Pos.iter xO m d) = Z.pos m * 2 ^ Z.pos d.
Proof.
  induction d as [|d IH] using Pos.peano_ind.
  - simpl. lia.
  - rewrite Pos.iter_succ, Pos2Z.inj_xO, IH, Pos2Z.inj_succ.
    rewrite Z.pow_succ_r by lia. ring.
Qed.

Theorem binary_round_valid s m e :
  valid_binary prec emax (binary_round prec emax s m e) = true.
Proof.
  unfold binary_round, shl_align.
  set (F := fexp prec emax (Z.pos (digits2_pos m) + e)).
  destruct (F - e) as [|d|d] eqn:Ed.
  - apply binary_round_aux_valid; [lia|].
    change (Zdigits2 (Z.pos m)) with (Z.pos (digits2_pos m)). fold F. lia.
  - apply binary_round_aux_valid; [lia|].
    change (Zdigits2 (Z.pos m)) with (Z.pos (digits2_pos m)). fold F. lia.
  - apply binary_round_aux_valid; [lia|].
    rewrite Zdigits2_log2 by lia. rewrite iter_xO_pow2.
    rewrite Z.log2_mul_pow2 by lia.
    assert (Hd : Z.pos (digits2_pos m) = Z.log2 (Z.pos m) + 1)
      by apply digits2_pos_log2.
    replace (Z.pos d + Z.log2 (Z.pos m) + 1 + F)
      with (Z.pos (digits2_pos m) + e) by lia.
    fold F. lia.
Qed.

Lemma shr_1_exact m :
  0 <= m ->
  shr_1 {| shr_m := m * 2; shr_r := false; shr_s := false |} =
  {| shr_m := m; shr_r := false; shr_s := false |}.
Proof.
  intros Hm. rewrite Z.mul_comm. destruct m as [|p|p]; try lia; reflexivity.
Qed.

(** Shifting out zeros loses nothing. *)
Lemma iter_shr_1_exact p : forall m,
  0 <= m ->
  iter_pos shr_1 p {| shr_m := m * 2 ^ Zpos p; shr_r := false; shr_s := false |} =
  {| shr_m := m; shr_r := false; shr_s := false |}.
Proof.
  induction p as [p IH|p IH|]; intros m Hm.
  - replace (m * 2 ^ Z.pos p~1) with (m * 2 ^ Z.pos p * 2 ^ Z.pos p * 2).
    + cbn [iter_pos]. rewrite shr_1_exact, IH, IH; try reflexivity; try lia;
        repeat apply Z.mul_nonneg_nonneg; try lia; apply Z.pow_nonneg; lia.
    + replace (Z.pos p~1) with (Z.pos p + Z.pos p + 1) by lia.
      rewrite !Z.pow_add_r by lia. change (2 ^ 1) with 2. ring.
  - replace (m * 2 ^ Z.pos p~0) with (m * 2 ^ Z.pos p * 2 ^ Z.pos p).
    + cbn [iter_pos]. rewrite IH, IH; try reflexivity; try lia;
        repeat apply Z.mul_nonneg_nonneg; try lia; apply Z.pow_nonneg; lia.
    + replace (Z.pos p~0) with (Z.pos p + Z.pos p) by lia.
      rewrite !Z.pow_add_r by lia. ring.
  - change (2 ^ 1) with 2. cbn [iter_pos]. apply shr_1_exact. exact Hm.
Qed.

(** A number that the format already holds is left as it is. *)
Theorem binary_round_exact s m e m' e' :
  bounded prec emax m' e' = true ->
  e <= e' ->
  Z.pos m = Z.pos m' * 2 ^ (e' - e) ->
  binary_round prec emax s m e = S754_finite s m' e'.
Proof.
  intros Hb Hee Hm. unfold bounded, canonical_mantissa in Hb.
  apply andb_prop in Hb. destruct Hb as [Hc Hle].
  apply Z.eqb_eq in Hc.
  assert (Hd : Z.pos (digits2_pos m) + e = Z.pos (digits2_pos m') + e').
  { rewrite !digits2_pos_log2, Hm.
    destruct (Z.eq_dec e' e) as [->|Hne].
    - rewrite Z.sub_diag. change (2 ^ 0) with 1. rewrite Z.mul_1_r. reflexivity.
    - rewrite Z.log2_mul_pow2 by lia. lia. }
  unfold binary_round, shl_align. rewrite Hd, Hc.
  assert (Hsh : shr_fexp prec emax (Z.pos m) e loc_Exact =
                ({| shr_m := Z.pos m'; shr_r := false; shr_s := false |}, e')).
  { unfold shr_fexp. change (Zdigits2 (Z.pos m)) with (Z.pos (digits2_pos m)).
    rewrite Hd, Hc. unfold shr, shr_record_of_loc.
    destruct (e' - e) as [|p|p] eqn:Ep; try lia.
    - change (2 ^ 0) with 1 in Hm. rewrite Z.mul_1_r in Hm. rewrite Hm.
      f_equal. lia.
    - rewrite Hm, iter_shr_1_exact by lia. f_equal. lia. }
  assert (Hsh' : shr_fexp prec emax (Z.pos m') e' loc_Exact =
                 ({| shr_m := Z.pos m'; shr_r := false; shr_s := false |}, e')).
  { unfold shr_fexp. change (Zdigits2 (Z.pos m')) with (Z.pos (digits2_pos m')).
    rewrite Hc, Z.sub_diag. reflexivity. }
  destruct (e' - e) as [|p|p] eqn:Ep; try lia;
    unfold binary_round_aux; rewrite Hsh; cbn [shr_m loc_of_shr_record
      round_nearest_even]; rewrite Hsh'; cbn [shr_m]; rewrite Hle; reflexivity.
Qed.

(** *** Rounding is to nearest, ties to even *)

Hypothesis prec_pos : 0 < prec.
Hypothesis emax_large : 1 < emax.

Lemma shr_1_record m r s :
  0 <= m ->
  shr_1 {| shr_m := m; shr_r := r; shr_s := s |} =
  {| shr_m := m / 2; shr_r := Z.odd m; shr_s := r || s |}.
Proof.
  intros Hm. rewrite <- Z.div2_div.
  destruct m as [|[p|p|]|p]; try reflexivity; lia.
Qed.

Lemma iter_pos_nat {A} (f : A -> A) p :
  forall x, iter_pos f p x = Nat.iter (Pos.to_nat p) f x.
Proof.
  induction p as [p IH|p IH|]; intros x; cbn [iter_pos].
  - rewrite !IH. rewrite Pos2Nat.inj_xI.
    replace (S (2 * Pos.to_nat p)) with (Pos.to_nat p + (Pos.to_nat p + 1))%nat by lia.
    rewrite !Nat.iter_add. reflexivity.
  - rewrite !IH. rewrite Pos2Nat.inj_xO.
    replace (2 * Pos.to_nat p)%nat with (Pos.to_nat p + Pos.to_nat p)%nat by lia.
    rewrite Nat.iter_add. reflexivity.
  - reflexivity.
Qed.

Lemma mod_pow2_succ m k :
  0 <= k ->
  m mod 2 ^ (k + 1) = m mod 2 ^ k + 2 ^ k * ((m / 2 ^ k) mod 2).
Proof.
  intros Hk. rewrite Z.pow_add_r by lia. change (2 ^ 1) with 2.
  apply Z.rem_mul_r; [apply Z.pow_nonzero; lia|lia].
Qed.

(** The round bit and the sticky bit after [k + 1] shifts. *)
Lemma iter_shr_1_bits m :
  0 <= m -> forall k : nat,
  Nat.iter (S k) shr_1 {| shr_m := m; shr_r := false; shr_s := false |} =
  {| shr_m := m / 2 ^ (Z.of_nat k + 1);
     shr_r := Z.odd (m / 2 ^ Z.of_nat k);
     shr_s := negb (m mod 2 ^ Z.of_nat k =? 0) |}.
Proof.
  intros Hm. induction k as [|k IH].
  - cbn [Nat.iter]. rewrite shr_1_record by exact Hm.
    change (2 ^ Z.of_nat 0) with 1. rewrite Z.div_1_r, Z.mod_1_r. reflexivity.
  - change (Nat.iter (S (S k)) shr_1 ?x) with (shr_1 (Nat.iter (S k) shr_1 x)).
    rewrite IH. clear IH.
    assert (Hp : 0 < 2 ^ Z.of_nat k) by (apply Z.pow_pos_nonneg; lia).
    assert (Hp1 : 0 < 2 ^ (Z.of_nat k + 1)) by (apply Z.pow_pos_nonneg; lia).
    rewrite shr_1_record by (apply Z.div_pos; lia).
    replace (Z.of_nat (S k)) with (Z.of_nat k + 1) by lia.
    f_equal.
    + rewrite Z.div_div by lia. f_equal.
      rewrite (Z.pow_add_r 2 (Z.of_nat k + 1) 1) by lia. reflexivity.
    + rewrite (mod_pow2_succ m (Z.of_nat k)) by lia.
      pose proof (Z.mod_pos_bound m (2 ^ Z.of_nat k) Hp) as Hb.
      rewrite Zmod_odd.
      destruct (Z.odd (m / 2 ^ Z.of_nat k)); cbn [orb].
      * symmetry. apply negb_true_iff. apply Z.eqb_neq. lia.
      * rewrite Z.mul_0_r, Z.add_0_r. reflexivity.
Qed.

(** Shifting [n] bits out and rounding on the round and sticky bits gives
    the multiple of [2 ^ n] nearest to [m], the even one on a tie. *)
Lemma shr_round_nearest p m :
  0 <= m ->
  let mrs := iter_pos shr_1 p {| shr_m := m; shr_r := false; shr_s := false |} in
  let q := round_nearest_even (shr_m mrs) (loc_of_shr_record mrs) in
  (m / 2 ^ Z.pos p <= q <= m / 2 ^ Z.pos p + 1) /\
  2 * Z.abs (m - q * 2 ^ Z.pos p) <= 2 ^ Z.pos p /\
  (2 * Z.abs (m - q * 2 ^ Z.pos p) = 2 ^ Z.pos p -> Z.even q = true).
Proof.
  intros Hm mrs q. subst mrs q.
  rewrite iter_pos_nat.
  destruct (Pos2Nat.is_succ p) as [k Hk]. rewrite Hk.
  rewrite iter_shr_1_bits by exact Hm.
  replace (Z.pos p) with (Z.of_nat k + 1) by lia.
  set (K := Z.of_nat k).
  assert (HK : 0 <= K) by (unfold K; lia).
  assert (Hp : 0 < 2 ^ K) by (apply Z.pow_pos_nonneg; lia).
  assert (HP : 2 ^ (K + 1) = 2 * 2 ^ K).
  { rewrite Z.pow_add_r by lia. change (2 ^ 1) with 2. ring. }
  pose proof (Z.div_mod m (2 ^ K) ltac:(lia)) as Hdm.
  pose proof (Z.mod_pos_bound m (2 ^ K) Hp) as Hb.
  assert (Hqq : m / 2 ^ (K + 1) = m / 2 ^ K / 2).
  { rewrite HP, Z.mul_comm. rewrite Z.div_div by lia. reflexivity. }
  pose proof (Z.div_mod (m / 2 ^ K) 2 ltac:(lia)) as Hd2.
  rewrite Zmod_odd in Hd2.
  rewrite Hqq, HP.
  set (h := m / 2 ^ K) in *. set (t := m mod 2 ^ K) in *.
  set (P := 2 ^ K) in *. set (q := h / 2) in *.
  cbn [shr_m loc_of_shr_record].
  assert (Hev : Z.even (q + 1) = negb (Z.even q)).
  { rewrite Z.even_add. destruct (Z.even q); reflexivity. }
  destruct (Z.odd h) eqn:Eo; destruct (t =? 0) eqn:Et;
    cbn [negb round_nearest_even];
    [apply Z.eqb_eq in Et|apply Z.eqb_neq in Et
    |apply Z.eqb_eq in Et|apply Z.eqb_neq in Et].
  - (* half way *)
    destruct (Z.even q) eqn:Eq.
    + split; [lia|]. split; [nia|]. intros _. exact Eq.
    + split; [lia|]. split; [nia|]. intros _. rewrite Hev. reflexivity.
  - (* above half *)
    split; [lia|]. split; [nia|]. intros Habs. exfalso. nia.
  - (* exact *)
    split; [lia|]. split; [nia|]. intros Habs. exfalso. nia.
  - (* below half *)
    split; [lia|]. split; [nia|]. intros Habs. exfalso. nia.
Qed.


Lemma Zdigits2_bounds m : 0 < m -> 2 ^ (Zdigits2 m - 1) <= m < 2 ^ Zdigits2 m.
Proof.
  intros Hm. rewrite Zdigits2_log2 by exact Hm.
  pose proof (Z.log2_spec m Hm) as H.
  replace (Z.log2 m + 1 - 1) with (Z.log2 m) by lia.
  unfold Z.succ in H. exact H.
Qed.

Lemma fexp_ge_emin x : 3 - emax - prec <= fexp prec emax x.
Proof. unfold fexp, emin. lia. Qed.

(** The mantissa left by the first shift has at most [prec] digits, and
    exactly [prec] above the smallest exponent. *)
Lemma shifted_mantissa_bounds m e :
  0 < m ->
  let E := fexp prec emax (Zdigits2 m + e) in
  e <= E ->
  0 <= m / 2 ^ (E - e) < 2 ^ prec /\
  (3 - emax - prec < E -> 2 ^ (prec - 1) <= m / 2 ^ (E - e)).
Proof.
  intros Hm E He.
  pose proof (Zdigits2_bounds m Hm) as [Hlo Hhi].
  assert (Hn : 0 < 2 ^ (E - e)) by (apply Z.pow_pos_nonneg; lia).
  assert (Hd : 0 < Zdigits2 m).
  { rewrite Zdigits2_log2 by exact Hm. pose proof (Z.log2_nonneg m). lia. }
  split; [split|].
  - apply Z.div_pos; lia.
  - apply Z.div_lt_upper_bound; [exact Hn|].
    rewrite <- Z.pow_add_r by lia.
    eapply Z.lt_le_trans; [exact Hhi|].
    apply Z.pow_le_mono_r; [lia|]. unfold E, fexp. lia.
  - intros Hmin. apply Z.div_le_lower_bound; [exact Hn|].
    rewrite <- Z.pow_add_r by lia.
    eapply Z.le_trans; [|exact Hlo].
    apply Z.pow_le_mono_r; [lia|]. unfold E, fexp, emin in *. lia.
Qed.

(** [binary_round_aux] on an exact mantissa whose exponent is not above
    the one its magnitude calls for: the result is the multiple of
    [2 ^ E] nearest to [m * 2 ^ e], the even one on a tie. *)
Lemma binary_round_aux_nearest s m e :
  0 < m ->
  let E := fexp prec emax (Zdigits2 m + e) in
  e <= E ->
  exists q,
    0 <= q /\
    2 * Z.abs (m - q * 2 ^ (E - e)) <= 2 ^ (E - e) /\
    (2 * Z.abs (m - q * 2 ^ (E - e)) = 2 ^ (E - e) -> Z.even q = true) /\
    represents emax s q E (binary_round_aux prec emax s m e loc_Exact).
Proof.
  intros Hm E He.
  pose proof (shifted_mantissa_bounds m e Hm He) as [Hq Hnorm]. fold E in Hq, Hnorm.
  pose proof (fexp_ge_emin (Zdigits2 m + e)) as Hmin. fold E in Hmin.
  unfold binary_round_aux.
  (* the first shift and the rounding *)
  assert (S1 : exists mrs',
    shr_fexp prec emax m e loc_Exact = (mrs', E) /\
    let q := round_nearest_even (shr_m mrs') (loc_of_shr_record mrs') in
    (m / 2 ^ (E - e) <= q <= m / 2 ^ (E - e) + 1) /\
    2 * Z.abs (m - q * 2 ^ (E - e)) <= 2 ^ (E - e) /\
    (2 * Z.abs (m - q * 2 ^ (E - e)) = 2 ^ (E - e) -> Z.even q = true)).
  { unfold shr_fexp. fold E. unfold shr. cbn [shr_record_of_loc].
    destruct (E - e) as [|p|p] eqn:En; try lia.
    - eexists. split; [f_equal; lia|].
      cbn [shr_m loc_of_shr_record round_nearest_even].
      change (2 ^ 0) with 1. rewrite Z.div_1_r.
      split; [lia|]. split; [lia|]. lia.
    - eexists. split; [f_equal; lia|].
      apply shr_round_nearest. lia. }
  destruct S1 as (mrs' & -> & Hr & Hnear & Htie).
  cbv zeta in Hr, Hnear, Htie.
  set (q := round_nearest_even (shr_m mrs') (loc_of_shr_record mrs')) in *.
  assert (Hq0 : 0 <= q) by lia.
  exists q. split; [exact Hq0|]. split; [exact Hnear|]. split; [exact Htie|].
  (* the second shift *)
  pose proof (shr_fexp_spec q E loc_Exact Hq0) as S2.
  destruct (shr_fexp prec emax q E loc_Exact) as [mrs'' e''].
  cbn [fst snd] in S2. cbv zeta in S2.
  unfold represents.
  destruct S2 as [(Hn & Hm'' & He'')|(Hn & Hm'' & He'')]; rewrite Hm'', He''.
  - (* no second shift *)
    destruct q as [|p|p] eqn:Eq; try lia; [reflexivity|].
    change (Z.pos p =? 0) with false. cbv iota.
    assert (Hlt : Z.pos p < 2 ^ prec).
    { pose proof (Zdigits2_bounds (Z.pos p) ltac:(lia)) as [_ Hhi].
      eapply Z.lt_le_trans; [exact Hhi|].
      apply Z.pow_le_mono_r; [lia|]. unfold fexp, emin in Hn. lia. }
    destruct (Z.leb_spec E (emax - prec)) as [Hle|Hgt].
    + destruct (Z.leb_spec (2 ^ (emax - E)) (Z.pos p)) as [Hov|_].
      * exfalso.
        assert (Hpw1 : 2 ^ prec <= 2 ^ (emax - E)) by (apply Z.pow_le_mono_r; lia).
        lia.
      * exists p, E. rewrite Z.sub_diag. change (2 ^ 0) with 1.
        repeat split; lia.
    + destruct (Z.leb_spec (2 ^ (emax - E)) (Z.pos p)) as [_|Hov]; [reflexivity|].
      exfalso. specialize (Hnorm ltac:(lia)).
      assert (Hpw2 : 2 ^ (emax - E) <= 2 ^ (prec - 1)) by (apply Z.pow_le_mono_r; lia).
      lia.
  - (* a carry into the next binade *)
    assert (Hqpos : 0 < q).
    { destruct (Z.eq_dec q 0) as [Hz|]; [|lia]. exfalso.
      rewrite Hz in Hn. change (Zdigits2 0) with 0 in Hn.
      unfold fexp, emin in *. lia. }
    pose proof (Zdigits2_bounds q Hqpos) as [Hlo _].
    assert (Hd : prec < Zdigits2 q) by (unfold fexp, emin in Hn; lia).
    assert (Hq2 : q = 2 ^ prec).
    { assert (Hpw3 : 2 ^ prec <= 2 ^ (Zdigits2 q - 1)) by (apply Z.pow_le_mono_r; lia).
      lia. }
    assert (Hd2 : Zdigits2 q = prec + 1).
    { rewrite Zdigits2_log2 by exact Hqpos. rewrite Hq2.
      rewrite Z.log2_pow2 by lia. reflexivity. }
    assert (Hn1 : fexp prec emax (Zdigits2 q + E) - E = 1).
    { rewrite Hd2. unfold fexp, emin in *. lia. }
    rewrite Hn1. change (2 ^ 1) with 2.
    assert (Hhalf : q / 2 = 2 ^ (prec - 1)).
    { rewrite Hq2. replace prec with (prec - 1 + 1) at 1 by lia.
      rewrite Z.pow_add_r by lia. change (2 ^ 1) with 2.
      apply Z.div_mul. lia. }
    rewrite Hhalf.
    assert (Hpp : 0 < 2 ^ (prec - 1)) by (apply Z.pow_pos_nonneg; lia).
    assert (Hdouble : 2 ^ (prec - 1) * 2 = q).
    { rewrite Hq2. replace prec with (prec - 1 + 1) at 2 by lia.
      rewrite Z.pow_add_r by lia. reflexivity. }
    destruct (2 ^ (prec - 1)) as [|p|p] eqn:Ep; try lia.
    destruct (Z.eqb_spec q 0) as [|_]; [lia|].
    destruct (Z.leb_spec (E + 1) (emax - prec)) as [Hle|Hgt].
    + destruct (Z.leb_spec (2 ^ (emax - E)) q) as [Hov|_].
      * exfalso.
        assert (Hpw : 2 ^ (prec + 1) <= 2 ^ (emax - E))
          by (apply Z.pow_le_mono_r; lia).
        rewrite Z.pow_add_r in Hpw by lia. change (2 ^ 1) with 2 in Hpw. lia.
      * exists p, (E + 1). replace (E + 1 - E) with 1 by lia.
        change (2 ^ 1) with 2. repeat split; lia.
    + destruct (Z.leb_spec (2 ^ (emax - E)) q) as [_|Hov]; [reflexivity|].
      exfalso.
      assert (Hpw4 : 2 ^ (emax - E) <= 2 ^ prec) by (apply Z.pow_le_mono_r; lia).
      lia.
Qed.

(** [binary_round] rounds to nearest, ties to even. *)
Theorem binary_round_nearest_even s m e :
  nearest_even prec emax (S754_finite s m e) (binary_round prec emax s m e).
Proof.
  unfold nearest_even. cbv zeta.
  change (Z.max (Zdigits2 (Z.pos m) + e - prec) (3 - emax - prec))
    with (fexp prec emax (Zdigits2 (Z.pos m) + e)).
  unfold binary_round, shl_align.
  change (Z.pos (digits2_pos m)) with (Zdigits2 (Z.pos m)).
  set (E := fexp prec emax (Zdigits2 (Z.pos m) + e)).
  destruct (E - e) as [|d|d] eqn:Ed.
  - pose proof (binary_round_aux_nearest s (Z.pos m) e ltac:(lia)) as H.
    cbv zeta in H. fold E in H. specialize (H ltac:(lia)).
    replace (Z.min e E) with e by lia. rewrite Z.sub_diag.
    change (2 ^ 0) with 1. rewrite Z.mul_1_r. exact H.
  - pose proof (binary_round_aux_nearest s (Z.pos m) e ltac:(lia)) as H.
    cbv zeta in H. fold E in H. specialize (H ltac:(lia)).
    replace (Z.min e E) with e by lia. rewrite Z.sub_diag.
    change (2 ^ 0) with 1. rewrite Z.mul_1_r. exact H.
  - pose proof (binary_round_aux_nearest s (Z.pos (Pos.iter xO m d)) E ltac:(lia)) as H.
    cbv zeta in H.
    assert (HE : fexp prec emax (Zdigits2 (Z.pos (Pos.iter xO m d)) + E) = E).
    { rewrite Zdigits2_log2 by lia. rewrite iter_xO_pow2.
      rewrite Z.log2_mul_pow2 by lia.
      assert (Hd : Zdigits2 (Z.pos m) = Z.log2 (Z.pos m) + 1)
        by (apply Zdigits2_log2; lia).
      replace (Z.pos d + Z.log2 (Z.pos m) + 1 + E)
        with (Zdigits2 (Z.pos m) + e) by lia.
      reflexivity. }
    rewrite HE in H. specialize (H ltac:(lia)).
    replace (Z.min e E) with E by lia.
    replace (e - E) with (Z.pos d) by lia.
    rewrite <- iter_xO_pow2. exact H.
Qed.


Lemma Zdigits2_mul_pow2 m j :
  0 < m -> 0 <= j -> Zdigits2 (m * 2 ^ j) = Zdigits2 m + j.
Proof.
  intros Hm Hj.
  assert (Hpw5 : 0 < 2 ^ j) by (apply Z.pow_pos_nonneg; lia).
  rewrite !Zdigits2_log2 by nia.
  rewrite Z.log2_mul_pow2 by lia. lia.
Qed.

(** Two canonical numbers of one value are the same number. *)
Lemma canonical_unique m1 e1 m2 e2 E :
  canonical_mantissa prec emax m1 e1 = true ->
  canonical_mantissa prec emax m2 e2 = true ->
  E <= e1 -> E <= e2 ->
  Z.pos m1 * 2 ^ (e1 - E) = Z.pos m2 * 2 ^ (e2 - E) ->
  m1 = m2 /\ e1 = e2.
Proof.
  unfold canonical_mantissa. intros C1 C2 H1 H2 Hv.
  apply Z.eqb_eq in C1, C2.
  change (Z.pos (digits2_pos m1)) with (Zdigits2 (Z.pos m1)) in C1.
  change (Z.pos (digits2_pos m2)) with (Zdigits2 (Z.pos m2)) in C2.
  pose proof (Zdigits2_mul_pow2 (Z.pos m1) (e1 - E) ltac:(lia) ltac:(lia)) as D1.
  pose proof (Zdigits2_mul_pow2 (Z.pos m2) (e2 - E) ltac:(lia) ltac:(lia)) as D2.
  rewrite Hv in D1.
  assert (He : e1 = e2).
  { rewrite <- C1, <- C2. f_equal. lia. }
  split; [|exact He]. subst e2.
  assert (Hpw6 : 0 < 2 ^ (e1 - E)) by (apply Z.pow_pos_nonneg; lia).
  apply Z.mul_cancel_r in Hv; [|lia]. congruence.
Qed.

(** At most one number of the format is the nearest one, ties to even. *)
Theorem nearest_even_unique x v1 v2 :
  nearest_even prec emax x v1 -> valid_binary prec emax v1 = true ->
  nearest_even prec emax x v2 -> valid_binary prec emax v2 = true ->
  v1 = v2.
Proof.
  destruct x as [s| s| |s m e]; cbn [nearest_even]; try congruence.
  cbv zeta.
  set (E := Z.max (Zdigits2 (Z.pos m) + e - prec) (3 - emax - prec)).
  set (k := Z.min e E).
  set (a := Z.pos m * 2 ^ (e - k)).
  set (P := 2 ^ (E - k)).
  assert (HP : 0 < P) by (apply Z.pow_pos_nonneg; lia).
  intros (q1 & Hq1 & N1 & T1 & R1) V1 (q2 & Hq2 & N2 & T2 & R2) V2.
  assert (Hq : q1 = q2).
  { destruct (Z.lt_trichotomy q1 q2) as [Hlt|[Heq|Hgt]]; [exfalso|exact Heq|exfalso].
    - assert (Hs : q2 = q1 + 1) by nia.
      assert (B1 : 2 * Z.abs (a - q1 * P) = P) by nia.
      assert (B2 : 2 * Z.abs (a - q2 * P) = P) by nia.
      specialize (T1 B1). specialize (T2 B2).
      rewrite Hs, Z.even_add, T1 in T2. discriminate.
    - assert (Hs : q1 = q2 + 1) by nia.
      assert (B1 : 2 * Z.abs (a - q1 * P) = P) by nia.
      assert (B2 : 2 * Z.abs (a - q2 * P) = P) by nia.
      specialize (T1 B1). specialize (T2 B2).
      rewrite Hs, Z.even_add, T2 in T1. discriminate. }
  subst q2. unfold represents in R1, R2.
  destruct (q1 =? 0); [congruence|].
  destruct (2 ^ (emax - E) <=? q1); [congruence|].
  destruct R1 as (m1 & e1 & -> & L1 & W1).
  destruct R2 as (m2 & e2 & -> & L2 & W2).
  cbn [valid_binary] in V1, V2. unfold bounded in V1, V2.
  apply andb_prop in V1, V2.
  destruct (canonical_unique m1 e1 m2 e2 E) as [-> ->];
    try tauto; try congruence.
Qed.

End Rounding.

Lemma np_float32_is_float32 x : is_float32 (np_float32 x) = true.
Proof.
  unfold is_float32, np_float32. destruct (Prim2SF x); try reflexivity.
  apply binary_round_valid.
Qed.

(** A double that is a binary32 number is stored as it is. *)
Lemma np_float32_exact x s m e m' e' :
  Prim2SF x = S754_finite s m e ->
  bounded 24 128 m' e' = true ->
  (e <= e')%Z ->
  Z.pos m = (Z.pos m' * 2 ^ (e' - e))%Z ->
  np_float32 x = S754_finite s m' e'.
Proof.
  intros Hx Hb He Hm. unfold np_float32. rewrite Hx.
  apply binary_round_exact; assumption.
Qed.

(** The conversion rounds to nearest, ties to even, at binary32. *)
Lemma np_float32_nearest_even x :
  nearest_even 24 128 (Prim2SF x) (np_float32 x).
Proof.
  unfold np_float32. destruct (Prim2SF x) as [s|s| |s m e]; try reflexivity.
  apply binary_round_nearest_even; lia.
Qed.

(** No other binary32 number is the sample rounded to nearest, ties to
    even. *)
Lemma np_float32_only x v :
  is_float32 v = true ->
  nearest_even 24 128 (Prim2SF x) v ->
  v = np_float32 x.
Proof.
  intros Hv Hn.
  apply (nearest_even_unique 24 128) with (x := Prim2SF x); try assumption;
    try lia.
  - apply np_float32_nearest_even.
  - apply np_float32_is_float32.
Qed.

Lemma Forall2_map_image {A B} (f : A -> B) (R : A -> B -> Prop) l :
  (forall a, R a (f a)) -> Forall2 R l (map f l).
Proof. intros H. induction l; simpl; constructor; auto. Qed.

Section ParserFacts.

Variable Bvh_init : string -> result Bvh.

(** Every way for [parse_bvh] to return. *)
Lemma parse_bvh_Ok path w d w' :
  parse_bvh Bvh_init path w = (Ok d, w') <->
  exists mocap joints n rows ft,
    loads Bvh_init w path mocap /\
    get_joints mocap = Ok joints /\
    nframes mocap = Ok n /\
    Forall2 (fun i row => frame_body mocap (map name joints) i = Ok row)
            (range n) rows /\
    frame_time mocap = Ok ft /\
    d = {| joint_names := map name joints;
           frames := np_array_float32 rows;
           ds_frame_time := ft |} /\
    w' = printed w (map name joints).
Proof.
  unfold parse_bvh, bind, lift, open_read, print, ret, printed. split.
  - destruct (files w path) as [text|] eqn:Ef; [|discriminate].
    destruct (Bvh_init text) as [mocap|] eqn:Eb; [|discriminate].
    destruct (get_joints mocap) as [joints|] eqn:Ej; [|discriminate].
    destruct (nframes mocap) as [n|] eqn:En; [|discriminate].
    destruct (frames_loop mocap (map name joints) (range n) []) as [rows|] eqn:El;
      [|discriminate].
    destruct (frame_time mocap) as [ft|] eqn:Et; [|discriminate].
    intros H; injection H as <- <-.
    apply frames_loop_Ok in El. destruct El as (rows' & -> & Hr).
    exists mocap, joints, n, rows', ft. simpl.
    split; [exists text; split; assumption|].
    repeat (split; [assumption|]). split; reflexivity.
  - intros (mocap & joints & n & rows & ft & (text & Ef & Eb) & Ej & En & Hr
            & Et & -> & ->).
    rewrite Ef, Eb, Ej, En.
    assert (El : frames_loop mocap (map name joints) (range n) [] = Ok rows).
    { apply frames_loop_Ok. exists rows. split; [reflexivity | exact Hr]. }
    rewrite El, Et. reflexivity.
Qed.

Lemma valid_frame_body w path mocap joints n ft i :
  valid_input Bvh_init w path mocap joints n ft -> (0 <= i < n)%Z ->
  exists row, frame_body mocap (map name joints) i = Ok row.
Proof.
  intros V Hi.
  pose proof (vi_root_channels _ _ _ _ _ _ _ V i Hi) as Hr.
  unfold root_channels, root_position_channels, root_rotation_channels in Hr.
  simpl in Hr.
  repeat match goal with
         | H : Forall _ (_ :: _) |- _ => inversion H; clear H; subst
         end.
  repeat match goal with H : present_at _ _ _ _ |- _ => destruct H as [? H] end.
  assert (Hv : exists vals,
             Forall2 (fun j v => axis_loop mocap i j joint_axes 0%float = Ok v)
                     (tl (map name joints)) vals).
  { apply Forall2_total. apply Forall_forall. intros j Hj.
    apply axis_loop_total. exact (vi_joint_channels _ _ _ _ _ _ _ V i j Hi Hj). }
  destruct Hv as [vals Hv].
  eexists. apply frame_body_Ok. do 6 eexists. exists vals.
  split; [|split; [exact Hv | reflexivity]].
  unfold root_samples. repeat split; eassumption.
Qed.

(** A valid input is parsed: the loop builds one row per frame index and
    the dictionary holds the rows as a [float32] array. *)
Lemma parse_valid w path mocap joints n ft :
  valid_input Bvh_init w path mocap joints n ft ->
  exists rows,
    Forall2 (fun i row => frame_body mocap (map name joints) i = Ok row)
            (range n) rows /\
    parse_bvh Bvh_init path w =
      (Ok {| joint_names := map name joints;
             frames := np_array_float32 rows;
             ds_frame_time := ft |},
       printed w (map name joints)).
Proof.
  intros V.
  assert (Hr : exists rows,
             Forall2 (fun i row => frame_body mocap (map name joints) i = Ok row)
                     (range n) rows).
  { apply Forall2_total. apply Forall_forall. intros i Hi.
    apply In_range in Hi. exact (valid_frame_body _ _ _ _ _ _ i V Hi). }
  destruct Hr as [rows Hr]. exists rows. split; [exact Hr|].
  apply parse_bvh_Ok. exists mocap, joints, n, rows, ft.
  destruct V. repeat split; assumption.
Qed.

Lemma rows_frame mocap joints n rows i :
  Forall2 (fun i row => frame_body mocap (map name joints) i = Ok row)
          (range n) rows ->
  (0 <= i < n)%Z ->
  exists row, nth_error rows (Z.to_nat i) = Some row /\
              frame_body mocap (map name joints) i = Ok row.
Proof.
  intros Hr Hi.
  exact (Forall2_nth_error _ _ _ _ _ Hr (nth_error_range n i Hi)).
Qed.

Lemma parse_bvh_loop_error path w mocap joints n e :
  loads Bvh_init w path mocap ->
  get_joints mocap = Ok joints ->
  nframes mocap = Ok n ->
  frames_loop mocap (map name joints) (range n) [] = Raise e ->
  parse_bvh Bvh_init path w = (Raise e, printed w (map name joints)).
Proof.
  intros (text & Ef & Eb) Ej En El.
  unfold parse_bvh, bind, lift, open_read, print, ret, printed.
  rewrite Ef, Eb, Ej, En, El. reflexivity.
Qed.

Lemma loads_functional w path mocap mocap' :
  loads Bvh_init w path mocap -> loads Bvh_init w path mocap' -> mocap = mocap'.
Proof.
  intros (t & Ef & Eb) (t' & Ef' & Eb'). congruence.
Qed.

Lemma emits_of_sample d rows i c v :
  frames d = np_array_float32 rows ->
  sample_at rows i c = Some v -> emits d rows i c v.
Proof.
  intros E H. split; [exact H|].
  rewrite (sample_at_float32 d rows i c E), H. reflexivity.
Qed.

(** ** The shape of the dataset *)

(** C1. For every valid input file the dataset has exactly as many rows
    as the file declares frames, and every row has width
    [len(joint_names) + 5]: six root values and one value for each
    joint after the root. *)
Theorem parse_bvh_shape w path mocap joints n ft :
  valid_input Bvh_init w path mocap joints n ft ->
  exists d w',
    parse_bvh Bvh_init path w = (Ok d, w') /\
    Z.of_nat (List.length (frames d)) = n /\
    Forall (fun row => List.length row = (List.length (joint_names d) + 5)%nat)
           (frames d).
Proof.
  intros V. destruct (parse_valid _ _ _ _ _ _ V) as (rows & Hr & Hp).
  eexists; eexists. split; [exact Hp|]. simpl. split.
  - unfold np_array_float32. rewrite length_map.
    rewrite (Forall2_length_eq _ _ _ Hr), length_range.
    pose proof (vi_count _ _ _ _ _ _ _ V). lia.
  - unfold np_array_float32. apply Forall_map.
    apply Forall_forall. intros row Hin. rewrite length_map.
    apply In_nth_error in Hin. destruct Hin as [k Hk].
    apply Forall2_flip in Hr.
    destruct (Forall2_nth_error _ _ _ _ _ Hr Hk) as (i & _ & Hi).
    rewrite (frame_body_width _ _ _ _ Hi).
    pose proof (vi_root _ _ _ _ _ _ _ V) as Hne.
    destruct joints as [|root rest]; [congruence|]. simpl.
    rewrite length_map. lia.
Qed.

(** ** The root *)

(** C4, amended. In every frame of a valid input whose root is the joint
    Hips, the row starts with the root's X, Y, Z position samples,
    unchanged and in that order, followed by its Z, X, Y rotation samples
    in that order, whatever the order in which the file declares them. *)
Theorem parse_bvh_root_columns w path mocap root rest n ft :
  valid_input Bvh_init w path mocap (root :: rest) n ft ->
  name root = "Hips" ->
  exists d w' rows,
    parse_bvh Bvh_init path w = (Ok d, w') /\
    frames d = np_array_float32 rows /\
    forall i, (0 <= i < n)%Z ->
      exists x y z rz rx ry row,
        root_samples mocap i (name root) x y z rz rx ry /\
        nth_error rows (Z.to_nat i) = Some row /\
        firstn 6 row = [x; y; z; rz; rx; ry] /\
        emits d rows i 0 x /\ emits d rows i 1 y /\ emits d rows i 2 z /\
        emits d rows i 3 rz /\ emits d rows i 4 rx /\ emits d rows i 5 ry.
Proof.
  intros V Hname. destruct (parse_valid _ _ _ _ _ _ V) as (rows & Hr & Hp).
  eexists; eexists; exists rows. split; [exact Hp|]. split; [reflexivity|].
  intros i Hi.
  destruct (rows_frame _ _ _ _ _ Hr Hi) as (row & Hrow & Hbody).
  apply frame_body_Ok in Hbody.
  destruct Hbody as (x & y & z & rz & rx & ry & vals & Hroot & _ & ->).
  exists x, y, z, rz, rx, ry. eexists. rewrite Hname.
  split; [exact Hroot|]. split; [exact Hrow|]. split; [reflexivity|].
  repeat split;
    try (unfold sample_at; rewrite Hrow; reflexivity);
    match goal with
    | |- cell ?d _ ?c = _ =>
        rewrite (sample_at_float32 d rows i c eq_refl);
        unfold sample_at; rewrite Hrow; reflexivity
    end.
Qed.

Lemma list_comp_app {A B} (f : A -> result B) l1 l2 :
  list_comp f (l1 ++ l2) =
  match list_comp f l1 with
  | Raise e => Raise e
  | Ok b1 => match list_comp f l2 with
             | Raise e => Raise e
             | Ok b2 => Ok (b1 ++ b2)
             end
  end.
Proof.
  induction l1 as [|a l1 IH]; simpl.
  - destruct (list_comp f l2); reflexivity.
  - destruct (f a); [|reflexivity]. rewrite IH.
    destruct (list_comp f l1); [|reflexivity].
    destruct (list_comp f l2); reflexivity.
Qed.

(** The six root lookups come first and are not guarded: the first of
    them that raises ends the frame. *)
Lemma frame_body_root_error mocap names i pre c post e :
  root_channels = pre ++ c :: post ->
  Forall (present_at mocap i "Hips") pre ->
  frame_joint_channel mocap i "Hips" c = Raise e ->
  frame_body mocap names i = Raise e.
Proof.
  intros Hsplit Hpre He.
  assert (Hall : list_comp (frame_joint_channel mocap i "Hips") root_channels =
                 Raise e).
  { apply list_comp_Raise. exists pre, c, post.
    split; [exact Hsplit|]. split; [exact He|].
    eapply Forall_impl; [|exact Hpre]. intros a [v Hv]. rewrite Hv. reflexivity. }
  unfold root_channels in Hall. rewrite list_comp_app in Hall.
  unfold frame_body.
  destruct (list_comp _ root_position_channels); [|congruence].
  destruct (list_comp _ root_rotation_channels); [discriminate|congruence].
Qed.

(** Among lookups of which one raises there is a first one that does. *)
Lemma first_missing mocap i joint l :
  Exists (missing_at mocap i joint) l ->
  exists pre c post e,
    l = pre ++ c :: post /\
    Forall (present_at mocap i joint) pre /\
    frame_joint_channel mocap i joint c = Raise e.
Proof.
  induction l as [|a l IH]; intros Hex; [inversion Hex|].
  destruct (frame_joint_channel mocap i joint a) as [v|e] eqn:Ea.
  - inversion Hex as [? ? [e He]|? ? Hex']; subst; [congruence|].
    destruct (IH Hex') as (pre & c & post & e & -> & Hpre & He).
    exists (a :: pre), c, post, e. split; [reflexivity|].
    split; [|exact He]. constructor; [exists v; exact Ea | exact Hpre].
  - exists [], a, l, e. split; [reflexivity|]. split; [constructor | exact Ea].
Qed.

(** C5, amended. When one of the six channels (X, Y, Z position, Z, X, Y
    rotation) is missing for the joint called Hips, its lookup raising in
    the first frame, and the file has at least one frame, the parse fails
    and no dataset is returned: the exception that reaches the caller is
    the one raised by the first of the six lookups that fails, whatever
    its class, after the joint list has been printed. *)
Theorem parse_bvh_missing_root_channel w path mocap joints n :
  loads Bvh_init w path mocap ->
  get_joints mocap = Ok joints ->
  nframes mocap = Ok n ->
  (1 <= n)%Z ->
  Exists (missing_at mocap 0 "Hips") root_channels ->
  exists pre c post e,
    root_channels = pre ++ c :: post /\
    Forall (present_at mocap 0 "Hips") pre /\
    frame_joint_channel mocap 0 "Hips" c = Raise e /\
    parse_bvh Bvh_init path w = (Raise e, printed w (map name joints)).
Proof.
  intros Hl Hj Hn Hpos Hex.
  destruct (first_missing _ _ _ _ Hex) as (pre & c & post & e & Hs & Hpre & He).
  exists pre, c, post, e. repeat (split; [assumption|]).
  apply (parse_bvh_loop_error _ _ mocap _ n); try assumption.
  destruct (range_cons n Hpos) as [idx ->].
  apply frames_loop_Raise_first.
  exact (frame_body_root_error _ _ _ _ _ _ _ Hs Hpre He).
Qed.

(** ** The header *)

(** C6. When the text has no hierarchy block, so that the package cannot
    build the object or cannot list its joints, the parse fails with the
    package's exception before the frame loop: nothing has been printed,
    and the frame count and the samples play no part. *)
Theorem parse_bvh_missing_hierarchy w path text e :
  files w path = Ok text ->
  header_fails Bvh_init text e ->
  parse_bvh Bvh_init path w = (Raise e, w).
Proof.
  intros Ef H. unfold parse_bvh, bind, lift, open_read.
  rewrite Ef. destruct H as [Eb|(mocap & Eb & Ej)].
  - rewrite Eb. reflexivity.
  - rewrite Eb, Ej. reflexivity.
Qed.

(** C9. When the hierarchy block is there and the motion section declares
    zero frames, the parse returns an empty frame sequence and the names
    of all joints, in the order of the skeleton. *)
Theorem parse_bvh_zero_frames w path mocap joints ft :
  loads Bvh_init w path mocap ->
  get_joints mocap = Ok joints ->
  nframes mocap = Ok 0%Z ->
  frame_time mocap = Ok ft ->
  parse_bvh Bvh_init path w =
    (Ok {| joint_names := map name joints; frames := []; ds_frame_time := ft |},
     printed w (map name joints)).
Proof.
  intros Hl Hj Hn Ht. apply parse_bvh_Ok.
  exists mocap, joints, 0%Z, [], ft.
  repeat (split; [assumption|]). split; [constructor|].
  split; [assumption|]. split; reflexivity.
Qed.

(** ** Determinism *)

Lemma parse_bvh_files path w :
  files (snd (parse_bvh Bvh_init path w)) = files w.
Proof.
  unfold parse_bvh, bind, lift, open_read, print, ret.
  destruct (files w path) as [text|]; [|reflexivity].
  destruct (Bvh_init text) as [mocap|]; [|reflexivity].
  destruct (get_joints mocap) as [joints|]; [|reflexivity].
  destruct (nframes mocap) as [n|]; [|reflexivity].
  destruct (frames_loop _ _ _ _); [|reflexivity].
  destruct (frame_time mocap); reflexivity.
Qed.

(** The outcome depends on the world through the file's text alone. *)
Lemma parse_bvh_same_text path w1 w2 :
  files w1 path = files w2 path ->
  fst (parse_bvh Bvh_init path w1) = fst (parse_bvh Bvh_init path w2).
Proof.
  intros E. unfold parse_bvh, bind, lift, open_read, print, ret.
  rewrite E. destruct (files w2 path) as [text|]; [|reflexivity].
  destruct (Bvh_init text) as [mocap|]; [|reflexivity].
  destruct (get_joints mocap) as [joints|]; [|reflexivity].
  destruct (nframes mocap) as [n|]; [|reflexivity].
  destruct (frames_loop _ _ _ _); [|reflexivity].
  destruct (frame_time mocap); reflexivity.
Qed.

(** C8. Parsing the same file twice gives identical outcomes: the second
    call, run in the world the first one left, returns the same dataset
    (same joint names, same array, same frame time) or raises the same
    exception. *)
Theorem parse_bvh_deterministic path w :
  fst (parse_bvh Bvh_init path (snd (parse_bvh Bvh_init path w))) =
  fst (parse_bvh Bvh_init path w).
Proof.
  apply parse_bvh_same_text. rewrite parse_bvh_files. reflexivity.
Qed.

(** ** The literal joint name *)

(** C10, amended. The six root values are looked up under the literal
    name Hips, whatever the first joint of the skeleton is called: with
    at least one frame, an exception raised by the first lookup under
    Hips ends the parse, the channels of the root notwithstanding, and
    every row of a returned dataset starts with the six samples found
    under Hips. *)
Theorem parse_bvh_literal_Hips w path mocap joints n :
  loads Bvh_init w path mocap ->
  get_joints mocap = Ok joints ->
  nframes mocap = Ok n ->
  (1 <= n)%Z ->
  (forall e, frame_joint_channel mocap 0 "Hips" "Xposition" = Raise e ->
     parse_bvh Bvh_init path w = (Raise e, printed w (map name joints))) /\
  (forall d w', parse_bvh Bvh_init path w = (Ok d, w') ->
     forall i, (0 <= i < n)%Z ->
       exists x y z rz rx ry row,
         root_samples mocap i "Hips" x y z rz rx ry /\
         nth_error (frames d) (Z.to_nat i) = Some row /\
         firstn 6 row = map np_float32 [x; y; z; rz; rx; ry]).
Proof.
  intros Hl Hj Hn Hpos. split.
  - intros e He. apply (parse_bvh_loop_error _ _ mocap _ n); try assumption.
    destruct (range_cons n Hpos) as [idx ->].
    apply frames_loop_Raise_first. unfold frame_body. simpl. rewrite He.
    reflexivity.
  - intros d w' Hp i Hi. apply parse_bvh_Ok in Hp.
    destruct Hp as (mocap' & joints' & n' & rows & ft & Hl' & Hj' & Hn' & Hr
                    & _ & -> & _).
    rewrite <- (loads_functional _ _ _ _ Hl Hl') in *.
    assert (n' = n) by congruence. subst n'.
    destruct (rows_frame _ _ _ _ _ Hr Hi) as (row & Hrow & Hbody).
    apply frame_body_Ok in Hbody.
    destruct Hbody as (x & y & z & rz & rx & ry & vals & Hroot & _ & ->).
    exists x, y, z, rz, rx, ry. eexists. split; [exact Hroot|].
    cbn [frames]. unfold np_array_float32. rewrite nth_error_map, Hrow.
    split; reflexivity.
Qed.

(** ** The array *)

(** C7. Every value of a returned dataset is a binary32 number, and it is
    the sample that the frame loop put at the same row and column rounded
    to 32-bit precision: to nearest, ties to even, and the only binary32
    number that is.  All rows of the array have one width. *)
Theorem parse_bvh_float32 path w d w' :
  parse_bvh Bvh_init path w = (Ok d, w') ->
  exists mocap n rows,
    loads Bvh_init w path mocap /\
    nframes mocap = Ok n /\
    Forall2 (fun i row => frame_body mocap (joint_names d) i = Ok row)
            (range n) rows /\
    Forall2 (Forall2 (fun x v =>
               is_float32 v = true /\
               nearest_even 24 128 (Prim2SF x) v /\
               forall v', is_float32 v' = true ->
                          nearest_even 24 128 (Prim2SF x) v' -> v' = v))
            rows (frames d) /\
    Forall (fun row => List.length row = (6 + List.length (tl (joint_names d)))%nat)
           (frames d).
Proof.
  intros Hp. apply parse_bvh_Ok in Hp.
  destruct Hp as (mocap & joints & n & rows & ft & Hl & _ & Hn & Hr & _ & -> & _).
  cbn [frames joint_names]. unfold np_array_float32.
  exists mocap, n, rows. repeat (split; [assumption|]). split.
  - apply Forall2_map_image. intros row.
    apply Forall2_map_image. intros x.
    split; [apply np_float32_is_float32|].
    split; [apply np_float32_nearest_even|].
    intros v' Hv' Hn'. exact (np_float32_only x v' Hv' Hn').
  - apply Forall_map. apply Forall_forall. intros row Hin. rewrite length_map.
    apply In_nth_error in Hin. destruct Hin as [k Hk].
    apply Forall2_flip in Hr.
    destruct (Forall2_nth_error _ _ _ _ _ Hr Hk) as (i & _ & Hi).
    exact (frame_body_width _ _ _ _ Hi).
Qed.

End ParserFacts.

(** * The properties on concrete files *)

Lemma three_joints_valid :
  valid_input demo_init demo_world "three_joints.bvh" (table_bvh three_joints)
              three_joints_nodes 2 0.25.
Proof.
  constructor.
  - exists "three_joints". split; reflexivity.
  - reflexivity.
  - discriminate.
  - reflexivity.
  - lia.
  - reflexivity.
  - intros i Hi. assert (Hc : i = 0%Z \/ i = 1%Z) by lia.
    destruct Hc as [-> | ->]; each_channel ltac:(eexists; reflexivity).
  - intros i joint Hi Hin. assert (Hc : i = 0%Z \/ i = 1%Z) by lia.
    simpl in Hin. destruct Hin as [<-|[<-|[]]];
      destruct Hc as [-> | ->]; each_channel present_or_absent.
Defined.

Lemma parse_bvh_shape_witness :
  valid_input demo_init demo_world "three_joints.bvh" (table_bvh three_joints)
              three_joints_nodes 2 0.25 /\
  exists d w',
    parse_bvh demo_init "three_joints.bvh" demo_world = (Ok d, w') /\
    Z.of_nat (List.length (frames d)) = 2%Z /\
    Forall (fun row => List.length row = (List.length (joint_names d) + 5)%nat)
           (frames d).
Proof.
  split; [exact three_joints_valid|].
  exact (parse_bvh_shape demo_init _ _ _ _ _ _ three_joints_valid).
Defined.

Lemma arm_three_axes_valid :
  valid_input demo_init demo_world "arm_three_axes.bvh" (table_bvh arm_three_axes)
              [ {| name := "Hips" |}; {| name := "Arm" |} ] 1 0.25.
Proof.
  constructor.
  - exists "arm_three_axes". split; reflexivity.
  - reflexivity.
  - discriminate.
  - reflexivity.
  - lia.
  - reflexivity.
  - intros i Hi. assert (Hc : i = 0%Z) by lia. subst i.
    each_channel ltac:(eexists; reflexivity).
  - intros i joint Hi Hin. assert (Hc : i = 0%Z) by lia. subst i.
    simpl in Hin. destruct Hin as [<-|[]]. each_channel present_or_absent.
Defined.

(** C2. The fallback from the Z rotation to the next axis does not take
    place on a file read by the package as released: for a Spine that
    declares its Y rotation alone, sample 7.0, the lookup of the missing Z
    rotation raises ValueError, which line 57 does not catch, and the
    parse fails where the Y sample was to be emitted. *)
Theorem parse_bvh_Yrotation_alone_raises :
  frame_joint_channel (package_bvh spine_Y_only) 0 "Spine" "Yrotation" =
    Ok 7%float /\
  parse_bvh package_init "spine_Y_only.bvh" package_world =
    (Raise (Exception "ValueError" "'Zrotation' is not in list"),
     printed package_world ["Hips"; "Spine"]).
Proof. split; reflexivity. Qed.

(** C3. The default of 0.0 is not reached on a file read by the package
    as released: for a Head that declares no rotation channel, each of
    the three rotation lookups raises ValueError, and the first of them
    ends the parse where 0.0 was to be emitted. *)
Theorem parse_bvh_no_rotation_raises :
  Forall (fun axis =>
            frame_joint_channel (package_bvh head_positions_only) 0 "Head" axis =
            Raise (Exception "ValueError"
                             ("'" ++ axis ++ "' is not in list")%string))
         joint_axes /\
  parse_bvh package_init "head_positions_only.bvh" package_world =
    (Raise (Exception "ValueError" "'Zrotation' is not in list"),
     printed package_world ["Hips"; "Head"]).
Proof.
  split; [|reflexivity].
  repeat (apply Forall_cons; [reflexivity|]). apply Forall_nil.
Qed.

Lemma hips_other_order_valid :
  valid_input demo_init demo_world "hips_other_order.bvh"
              (table_bvh hips_other_order) [ {| name := "Hips" |} ] 1 0.25.
Proof.
  constructor.
  - exists "hips_other_order". split; reflexivity.
  - reflexivity.
  - discriminate.
  - reflexivity.
  - lia.
  - reflexivity.
  - intros i Hi. assert (Hc : i = 0%Z) by lia. subst i.
    each_channel ltac:(eexists; reflexivity).
  - intros i joint Hi [].
Defined.

(** The file lists the samples as Z, X, Y position and X, Y, Z rotation;
    the row has them as X, Y, Z position and Z, X, Y rotation. *)
Lemma parse_bvh_root_columns_witness :
  valid_input demo_init demo_world "hips_other_order.bvh"
              (table_bvh hips_other_order) [ {| name := "Hips" |} ] 1 0.25 /\
  exists d w' rows row,
    parse_bvh demo_init "hips_other_order.bvh" demo_world = (Ok d, w') /\
    frames d = np_array_float32 rows /\
    nth_error rows 0 = Some row /\
    firstn 6 row = [1; 2; 3; 40; 50; 60]%float.
Proof.
  split; [exact hips_other_order_valid|].
  destruct (parse_bvh_root_columns demo_init demo_world "hips_other_order.bvh"
              (table_bvh hips_other_order) {| name := "Hips" |} [] 1 0.25
              hips_other_order_valid eq_refl)
    as (d & w' & rows & Hp & Hf & H).
  assert (Hi : (0 <= 0 < 1)%Z) by lia.
  destruct (H 0%Z Hi)
    as (x & y & z & rz & rx & ry & row
        & (Hx & Hy & Hz & Hrz & Hrx & Hry) & Hrow & Hfirst & _).
  exists d, w', rows, row. split; [exact Hp|]. split; [exact Hf|].
  split; [exact Hrow|].
  vm_compute in Hx, Hy, Hz, Hrz, Hrx, Hry.
  injection Hx as <-. injection Hy as <-. injection Hz as <-.
  injection Hrz as <-. injection Hrx as <-. injection Hry as <-.
  exact Hfirst.
Defined.

Lemma reference_root_valid :
  valid_input demo_init demo_world "reference_root.bvh"
              (table_bvh reference_root)
              [ {| name := "Reference" |}; {| name := "Hips" |} ] 1 0.25.
Proof.
  constructor.
  - exists "reference_root". split; reflexivity.
  - reflexivity.
  - discriminate.
  - reflexivity.
  - lia.
  - reflexivity.
  - intros i Hi. assert (Hc : i = 0%Z) by lia. subst i.
    each_channel ltac:(eexists; reflexivity).
  - intros i joint Hi Hin. assert (Hc : i = 0%Z) by lia. subst i.
    simpl in Hin. destruct Hin as [<-|[]]. each_channel present_or_absent.
Qed.

(** The root is called Reference and a joint below it is called Hips: the
    parse returns, and the six root columns hold the samples of that
    joint. *)
Example parse_reference_root :
  fst (parse_bvh demo_init "reference_root.bvh" demo_world) =
  Ok {| joint_names := ["Reference"; "Hips"];
        frames := np_array_float32 [ [10; 20; 30; 40; 50; 60; 40] ]%float;
        ds_frame_time := 0.25 |}.
Proof. vm_compute. reflexivity. Qed.

(** C4 as first stated fails: the file with the root Reference above
    Hips is a valid input, its root has the X position 1.0, and the row
    starts with 10.0, the X position of Hips. *)
Lemma parse_bvh_root_columns_other_root :
  ~ (forall (Bvh_init : string -> result Bvh) w path mocap root rest n ft,
       valid_input Bvh_init w path mocap (root :: rest) n ft ->
       exists d w' rows,
         parse_bvh Bvh_init path w = (Ok d, w') /\
         frames d = np_array_float32 rows /\
         forall i, (0 <= i < n)%Z ->
           exists x y z rz rx ry row,
             root_samples mocap i (name root) x y z rz rx ry /\
             nth_error rows (Z.to_nat i) = Some row /\
             firstn 6 row = [x; y; z; rz; rx; ry] /\
             emits d rows i 0 x /\ emits d rows i 1 y /\ emits d rows i 2 z /\
             emits d rows i 3 rz /\ emits d rows i 4 rx /\ emits d rows i 5 ry).
Proof.
  intros H.
  destruct (H demo_init demo_world "reference_root.bvh"
              (table_bvh reference_root)
              {| name := "Reference" |} [ {| name := "Hips" |} ] 1%Z 0.25%float
              reference_root_valid)
    as (d & w' & rows & Hp & _ & Hrow).
  destruct (Hrow 0%Z ltac:(lia))
    as (x & y & z & rz & rx & ry & row & (Hx & _) & _ & _ & (_ & Hc) & _).
  pose proof parse_reference_root as Hok. rewrite Hp in Hok.
  cbn [fst] in Hok. injection Hok as ->.
  vm_compute in Hx. injection Hx as <-.
  vm_compute in Hc. discriminate.
Qed.

(** Hips lacks its Y rotation: the first five lookups give their samples,
    the sixth raises the package's ValueError, and that is what the
    caller gets. *)
Lemma parse_bvh_missing_root_channel_witness :
  Exists (missing_at (package_bvh root_without_Yrotation) 0 "Hips")
         root_channels /\
  exists pre c post e,
    root_channels = pre ++ c :: post /\
    Forall (present_at (package_bvh root_without_Yrotation) 0 "Hips") pre /\
    frame_joint_channel (package_bvh root_without_Yrotation) 0 "Hips" c =
      Raise e /\
    parse_bvh package_init "root_without_Yrotation.bvh" package_world =
      (Raise e, printed package_world ["Hips"; "Spine"]).
Proof.
  assert (Hex : Exists (missing_at (package_bvh root_without_Yrotation) 0 "Hips")
                       root_channels).
  { unfold root_channels. simpl. do 5 apply Exists_cons_tl.
    apply Exists_cons_hd. eexists; reflexivity. }
  split; [exact Hex|].
  refine (parse_bvh_missing_root_channel package_init package_world
            "root_without_Yrotation.bvh" (package_bvh root_without_Yrotation)
            [ {| name := "Hips" |}; {| name := "Spine" |} ] 1 _ _ _ _ Hex).
  - exists "root_without_Yrotation". split; reflexivity.
  - reflexivity.
  - reflexivity.
  - lia.
Defined.

(** The exception of that run. *)
Example parse_root_without_Yrotation :
  parse_bvh package_init "root_without_Yrotation.bvh" package_world =
    (Raise (Exception "ValueError" "'Yrotation' is not in list"),
     printed package_world ["Hips"; "Spine"]).
Proof. reflexivity. Qed.

(** The root Reference lacks its Y rotation and the joint Hips below it
    has the six channels: the parse returns. *)
Example parse_reference_without_Yrotation :
  fst (parse_bvh package_init "reference_without_Yrotation.bvh" package_world) =
  Ok {| joint_names := ["Reference"; "Hips"];
        frames := np_array_float32 [ [10; 20; 30; 40; 50; 60; 40] ]%float;
        ds_frame_time := 0.25 |}.
Proof. vm_compute. reflexivity. Qed.

(** C5 as first stated fails: a root that lacks one of the six channels
    and a file of one frame do not make the parse fail when the root is
    not the joint called Hips. *)
Lemma parse_bvh_root_channel_missing_can_succeed :
  ~ (forall (Bvh_init : string -> result Bvh) w path mocap root rest n,
       loads Bvh_init w path mocap ->
       get_joints mocap = Ok (root :: rest) ->
       nframes mocap = Ok n ->
       (1 <= n)%Z ->
       Exists (missing_at mocap 0 (name root)) root_channels ->
       exists e w', parse_bvh Bvh_init path w = (Raise e, w')).
Proof.
  intros H.
  destruct (H package_init package_world "reference_without_Yrotation.bvh"
              (package_bvh reference_without_Yrotation)
              {| name := "Reference" |} [ {| name := "Hips" |} ] 1%Z)
    as (e & w' & He).
  - exists "reference_without_Yrotation". split; reflexivity.
  - reflexivity.
  - reflexivity.
  - lia.
  - unfold root_channels. simpl. do 5 apply Exists_cons_tl.
    apply Exists_cons_hd. eexists; reflexivity.
  - pose proof parse_reference_without_Yrotation as Hok.
    rewrite He in Hok. discriminate.
Qed.

Lemma parse_bvh_missing_hierarchy_witness :
  parse_bvh demo_init "motion_only.bvh" demo_world =
    (Raise (Exception "StopIteration" ""), demo_world).
Proof.
  apply (parse_bvh_missing_hierarchy demo_init demo_world "motion_only.bvh"
           "motion_only").
  - reflexivity.
  - right. exists no_hierarchy. split; reflexivity.
Defined.

(** The run on the file with a rotation of one tenth. *)
Lemma parse_bvh_float32_witness :
  exists mocap n rows,
    loads package_init package_world "spine_tenth.bvh" mocap /\
    nframes mocap = Ok n /\
    Forall2 (fun i row =>
               frame_body mocap (joint_names spine_tenth_dataset) i = Ok row)
            (range n) rows /\
    Forall2 (Forall2 (fun x v =>
               is_float32 v = true /\
               nearest_even 24 128 (Prim2SF x) v /\
               forall v', is_float32 v' = true ->
                          nearest_even 24 128 (Prim2SF x) v' -> v' = v))
            rows (frames spine_tenth_dataset) /\
    Forall (fun row => List.length row =
                       (6 + List.length (tl (joint_names spine_tenth_dataset)))%nat)
           (frames spine_tenth_dataset).
Proof.
  apply (parse_bvh_float32 package_init "spine_tenth.bvh" package_world
           spine_tenth_dataset (printed package_world ["Hips"; "Spine"])).
  reflexivity.
Defined.

Lemma parse_bvh_zero_frames_witness :
  parse_bvh demo_init "no_frames.bvh" demo_world =
    (Ok {| joint_names := ["Hips"; "Spine"; "Head"];
           frames := [];
           ds_frame_time := 0.25 |},
     printed demo_world ["Hips"; "Spine"; "Head"]).
Proof.
  apply (parse_bvh_zero_frames demo_init demo_world "no_frames.bvh"
           (table_bvh no_frames) three_joints_nodes 0.25).
  - exists "no_frames". split; reflexivity.
  - reflexivity.
  - reflexivity.
  - reflexivity.
Defined.

Lemma parse_bvh_literal_Hips_witness :
  parse_bvh demo_init "no_hips.bvh" demo_world =
    (Raise (Exception "LookupError" "joint not found"),
     printed demo_world ["Reference"; "Spine"]).
Proof.
  refine (proj1 (parse_bvh_literal_Hips demo_init demo_world "no_hips.bvh"
                   (table_bvh no_hips)
                   [ {| name := "Reference" |}; {| name := "Spine" |} ] 1
                   _ _ _ _) _ _).
  - exists "no_hips". split; reflexivity.
  - reflexivity.
  - reflexivity.
  - lia.
  - reflexivity.
Defined.

(** C10 as first stated fails: a root with another name than Hips, all its
    six channels declared and one frame do not make the parse fail. *)
Lemma parse_bvh_other_root_name_can_succeed :
  ~ (forall (Bvh_init : string -> result Bvh) w path mocap root rest n,
       loads Bvh_init w path mocap ->
       get_joints mocap = Ok (root :: rest) ->
       name root <> "Hips" ->
       Forall (present_at mocap 0 (name root)) root_channels ->
       nframes mocap = Ok n ->
       (1 <= n)%Z ->
       exists e w', parse_bvh Bvh_init path w = (Raise e, w')).
Proof.
  intros H.
  destruct (H demo_init demo_world "reference_root.bvh"
              (table_bvh reference_root)
              {| name := "Reference" |} [ {| name := "Hips" |} ] 1%Z)
    as (e & w' & He).
  - exists "reference_root". split; reflexivity.
  - reflexivity.
  - discriminate.
  - each_channel ltac:(eexists; reflexivity).
  - reflexivity.
  - lia.
  - pose proof parse_reference_root as Hok. rewrite He in Hok. discriminate.
Qed.

(** * Saving, converting, listing *)

(** ** Python strings *)

Lemma endswith_spec s suffix :
  endswith s suffix = true <-> exists a, s = (a ++ suffix)%string.
Proof.
  induction s as [|c s IH]; cbn [endswith].
  - rewrite orb_false_r. split.
    + intros H. apply String.eqb_eq in H. exists "". simpl. exact H.
    + intros [a H]. apply String.eqb_eq. destruct a; simpl in H; [exact H|discriminate].
  - rewrite orb_true_iff, IH. split.
    + intros [H|[a H]].
      * apply String.eqb_eq in H. exists "". exact H.
      * exists (String c a). simpl. rewrite H. reflexivity.
    + intros [a H]. destruct a as [|c' a]; simpl in H.
      * left. apply String.eqb_eq. exact H.
      * right. injection H as _ H. exists a. exact H.
Qed.

Lemma lower_app a b : lower (a ++ b)%string = (lower a ++ lower b)%string.
Proof. induction a; simpl; congruence. Qed.

Lemma prefix_split p s : prefix p s = true -> exists b, s = (p ++ b)%string.
Proof.
  revert s; induction p as [|a p IH]; intros s H.
  - exists s. reflexivity.
  - destruct s as [|c s]; simpl in H; [discriminate|].
    destruct (ascii_dec a c) as [->|]; [|discriminate].
    destruct (IH s H) as [b ->]. exists b. reflexivity.
Qed.

Lemma prefix_app p b : prefix p (p ++ b)%string = true.
Proof.
  induction p as [|a p IH]; simpl; [destruct b; reflexivity|].
  destruct (ascii_dec a a); [exact IH|congruence].
Qed.

Lemma replace_from_skip old new a b :
  replace_from old new (String.length a) (a ++ b)%string = replace_from old new 0 b.
Proof.
  induction a as [|c a IH]; simpl; [reflexivity|exact IH].
Qed.

(** No occurrence: nothing changes. *)
Lemma replace_from_absent old new s :
  occurs old s = false -> replace_from old new 0 s = s.
Proof.
  induction s as [|c s IH]; [reflexivity|].
  cbn [occurs]. intros H. apply orb_false_elim in H. destruct H as [Hp Ho].
  cbn [replace_from]. rewrite Hp, (IH Ho). reflexivity.
Qed.

(** A path without ".bvh" in it, such as one with an upper-case extension,
    is its own default output path. *)
Theorem default_output_path_absent p :
  occurs ".bvh" p = false -> default_output_path p = p.
Proof.
  unfold default_output_path, replace.
  induction p as [|c p IH]; [reflexivity|].
  cbn [occurs]. intros H. apply orb_false_elim in H. destruct H as [Hp Ho].
  cbn [replace_from]. rewrite Hp, (IH Ho). reflexivity.
Qed.

Lemma prefix_cons a p c s :
  prefix (String a p) (String c s) = if ascii_dec a c then prefix p s else false.
Proof. reflexivity. Qed.

Lemma prefix_nil_r a p : prefix (String a p) "" = false.
Proof. reflexivity. Qed.

Lemma prefix_nil_l s : prefix "" s = true.
Proof. destruct s; reflexivity. Qed.

(** An occurrence of ".bvh" cannot start inside [a] and end inside a
    following ".bvh": the dot is its only dot. *)
Lemma bvh_not_astride c a b :
  prefix ".bvh" (String c a) = false ->
  prefix ".bvh" (String c a ++ ".bvh" ++ b)%string = false.
Proof.
  cbn [append]. rewrite !prefix_cons.
  destruct (ascii_dec "." c) as [_|]; [|reflexivity].
  destruct a as [|c1 a]; cbn [append]; rewrite ?prefix_cons, ?prefix_nil_r.
  { intros _. destruct (ascii_dec "b" "."); [discriminate|reflexivity]. }
  destruct (ascii_dec "b" c1) as [_|]; [|reflexivity].
  destruct a as [|c2 a]; cbn [append]; rewrite ?prefix_cons, ?prefix_nil_r.
  { intros _. destruct (ascii_dec "v" "."); [discriminate|reflexivity]. }
  destruct (ascii_dec "v" c2) as [_|]; [|reflexivity].
  destruct a as [|c3 a]; cbn [append]; rewrite ?prefix_cons, ?prefix_nil_r.
  { intros _. destruct (ascii_dec "h" "."); [discriminate|reflexivity]. }
  destruct (ascii_dec "h" c3) as [_|]; [|reflexivity].
  rewrite prefix_nil_l. discriminate.
Qed.

(** Every ".bvh" of the path is replaced, not only the extension: up to
    the first occurrence the path is kept, the occurrence becomes
    "_parsed.npy", and the rest is treated likewise. *)
Theorem default_output_path_first a b :
  occurs ".bvh" a = false ->
  default_output_path (a ++ ".bvh" ++ b)%string =
  (a ++ "_parsed.npy" ++ default_output_path b)%string.
Proof.
  unfold default_output_path, replace.
  induction a as [|c a IH]; intros H.
  - change ("" ++ ".bvh" ++ b)%string with (String "." ("bvh" ++ b)).
    cbn [replace_from]. 
    replace (prefix ".bvh" (String "." ("bvh" ++ b))) with true
      by (symmetry; apply (prefix_app ".bvh" b)).
    change (String.length ".bvh" - 1) with (String.length "bvh").
    rewrite replace_from_skip. reflexivity.
  - cbn [occurs] in H. apply orb_false_elim in H. destruct H as [Hp Ho].
    pose proof (bvh_not_astride c a b Hp) as Hn. specialize (IH Ho).
    remember (".bvh" ++ b)%string as t eqn:Et.
    cbn [append] in Hn |- *. cbn [replace_from]. rewrite Hn, IH.
    reflexivity.
Qed.

Lemma prefix_cons_neq a p c s :
  a <> c -> prefix (String a p) (String c s) = false.
Proof.
  intros H. rewrite prefix_cons. destruct (ascii_dec a c); [contradiction|reflexivity].
Qed.

Lemma prefix_cons_eq a p s :
  prefix (String a p) (String a s) = prefix p s.
Proof.
  rewrite prefix_cons. destruct (ascii_dec a a); [reflexivity|congruence].
Qed.

(** Where the replacement starts with a dot or an underscore, no letter
    starts it. *)
Lemma prefix_letter_replace_dot a p s :
  a <> "."%char -> a <> "_"%char ->
  prefix (String a p) (replace_from ".bvh" "_parsed.npy" 0 (String "." s)) = false.
Proof.
  intros Hd Hu. cbn [replace_from].
  destruct (prefix ".bvh" (String "." s)); cbn [append];
    apply prefix_cons_neq; assumption.
Qed.

Lemma replace_bvh_head c s :
  c <> "."%char ->
  replace_from ".bvh" "_parsed.npy" 0 (String c s) =
  String c (replace_from ".bvh" "_parsed.npy" 0 s).
Proof.
  intros Hc. cbn [replace_from]. rewrite prefix_cons_neq by congruence.
  reflexivity.
Qed.

Lemma prefix_cons_replace a p :
  a <> "."%char -> a <> "_"%char ->
  (forall s, prefix p (replace_from ".bvh" "_parsed.npy" 0 s) = prefix p s) ->
  forall s, prefix (String a p) (replace_from ".bvh" "_parsed.npy" 0 s) =
            prefix (String a p) s.
Proof.
  intros Hd Hu IH s. destruct s as [|c s]; [reflexivity|].
  destruct (ascii_dec c ".") as [->|Hc].
  - rewrite prefix_letter_replace_dot by assumption.
    rewrite prefix_cons_neq by assumption. reflexivity.
  - rewrite replace_bvh_head by exact Hc. rewrite !prefix_cons.
    destruct (ascii_dec a c); [apply IH | reflexivity].
Qed.

Lemma prefix_bvh_replace s :
  prefix "bvh" (replace_from ".bvh" "_parsed.npy" 0 s) = prefix "bvh" s.
Proof.
  revert s. repeat (apply prefix_cons_replace; [discriminate|discriminate|]).
  intros s. rewrite !prefix_nil_l. reflexivity.
Qed.

Lemma occurs_parsed_npy r :
  occurs ".bvh" ("_parsed.npy" ++ r)%string = occurs ".bvh" r.
Proof.
  cbn [append occurs].
  repeat first [ rewrite prefix_cons_neq by discriminate
               | rewrite prefix_cons_eq ].
  reflexivity.
Qed.

Lemma replace_bvh_clean : forall n s,
  String.length s <= n ->
  occurs ".bvh" (replace_from ".bvh" "_parsed.npy" 0 s) = false.
Proof.
  induction n as [|n IH]; intros s Hn.
  - destruct s; [reflexivity | simpl in Hn; lia].
  - destruct s as [|c s]; [reflexivity|].
    destruct (prefix ".bvh" (String c s)) eqn:Hp.
    + destruct (prefix_split _ _ Hp) as [b Hb]. rewrite Hb.
      change (".bvh" ++ b)%string with (String "." ("bvh" ++ b)).
      cbn [replace_from].
      replace (prefix ".bvh" (String "." ("bvh" ++ b))) with true
        by (symmetry; apply (prefix_app ".bvh" b)).
      change (String.length ".bvh" - 1) with (String.length "bvh").
      rewrite replace_from_skip, occurs_parsed_npy. apply IH.
      assert (String.length (String c s) = 4 + String.length b).
      { rewrite Hb. reflexivity. }
      simpl in *. lia.
    + cbn [replace_from]. rewrite Hp. cbn [occurs].
      rewrite IH by (simpl in Hn; lia). rewrite orb_false_r.
      rewrite prefix_cons in Hp |- *.
      destruct (ascii_dec "." c); [|reflexivity].
      rewrite prefix_bvh_replace. exact Hp.
Qed.

(** The default output path has no ".bvh" left in it, so it differs from
    every path that has one. *)
Theorem default_output_path_clean p :
  occurs ".bvh" (default_output_path p) = false.
Proof. apply (replace_bvh_clean (String.length p)). lia. Qed.

Lemma occurs_bvh_app_npy r :
  occurs ".bvh" (r ++ ".npy")%string = occurs ".bvh" r.
Proof.
  induction r as [|c r IH]; [reflexivity|].
  cbn [append occurs]. rewrite IH. f_equal.
  rewrite !prefix_cons. destruct (ascii_dec "." c); [|reflexivity].
  destruct r as [|c1 r]; cbn [append]; rewrite ?prefix_nil_r.
  { apply prefix_cons_neq. discriminate. }
  rewrite !prefix_cons. destruct (ascii_dec "b" c1); [|reflexivity].
  destruct r as [|c2 r]; cbn [append]; rewrite ?prefix_nil_r.
  { apply prefix_cons_neq. discriminate. }
  rewrite !prefix_cons. destruct (ascii_dec "v" c2); [|reflexivity].
  destruct r as [|c3 r]; cbn [append]; rewrite ?prefix_nil_r.
  { apply prefix_cons_neq. discriminate. }
  rewrite !prefix_cons. destruct (ascii_dec "h" c3); [|reflexivity].
  rewrite !prefix_nil_l. reflexivity.
Qed.

Lemma append_length a b :
  String.length (a ++ b)%string = String.length a + String.length b.
Proof. induction a; simpl; congruence. Qed.

(** With the default output path, [np.save] writes onto the input path
    exactly when that path has no ".bvh" in it and ends in ".npy". *)
Lemma np_save_name_default_path p :
  np_save_name (default_output_path p) = p <->
  occurs ".bvh" p = false /\ endswith p ".npy" = true.
Proof.
  assert (Habs : occurs ".bvh" p = false -> default_output_path p = p)
    by apply replace_from_absent.
  split.
  - intros H. assert (Ho : occurs ".bvh" p = false).
    { pose proof (replace_bvh_clean (String.length p) p (le_n _)) as Hc.
      fold (replace p ".bvh" "_parsed.npy") in Hc.
      fold (default_output_path p) in Hc.
      unfold np_save_name in H.
      destruct (endswith (default_output_path p) ".npy").
      - rewrite H in Hc. exact Hc.
      - rewrite <- H, occurs_bvh_app_npy. exact Hc. }
    split; [exact Ho|].
    rewrite (Habs Ho) in H. unfold np_save_name in H.
    destruct (endswith p ".npy"); [reflexivity|].
    apply (f_equal String.length) in H. rewrite append_length in H.
    simpl in H. lia.
  - intros [Ho He]. rewrite (Habs Ho).
    unfold np_save_name. rewrite He. reflexivity.
Qed.

(** ** Listing the files *)

Lemma files_loop_spec root files acc :
  files_loop root files acc =
  acc ++ map (os_path_join root) (filter is_bvh_name files).
Proof.
  revert acc; induction files as [|f files IH]; intros acc; simpl.
  - rewrite app_nil_r. reflexivity.
  - rewrite IH. destruct (is_bvh_name f); simpl.
    + rewrite <- app_assoc. reflexivity.
    + reflexivity.
Qed.

Lemma walk_loop_spec entries acc :
  walk_loop entries acc =
  acc ++ flat_map (fun e => map (os_path_join (fst (fst e)))
                                (filter is_bvh_name (snd e))) entries.
Proof.
  revert acc; induction entries as [|[[root dirs] files] entries IH];
    intros acc; simpl.
  - rewrite app_nil_r. reflexivity.
  - rewrite IH, files_loop_spec, <- app_assoc. reflexivity.
Qed.

Lemma get_available_bvh_files_order os_walk base_path :
  get_available_bvh_files os_walk base_path =
  flat_map (fun e => map (os_path_join (fst (fst e)))
                         (filter is_bvh_name (snd e)))
           (os_walk (match base_path with
                     | Some p => p
                     | None => "motion_priors"
                     end)).
Proof. unfold get_available_bvh_files. apply walk_loop_spec. Qed.

Lemma append_assoc' a b c : ((a ++ b) ++ c = a ++ (b ++ c))%string.
Proof. induction a; simpl; congruence. Qed.

Lemma os_path_join_suffix a b : exists r, os_path_join a b = (r ++ b)%string.
Proof.
  unfold os_path_join. destruct (prefix "/" b).
  - exists "". reflexivity.
  - destruct (String.eqb a "" || endswith a "/").
    + exists a. reflexivity.
    + exists (a ++ "/")%string. rewrite append_assoc'. reflexivity.
Qed.

Lemma is_bvh_name_join root file :
  is_bvh_name file = true -> is_bvh_name (os_path_join root file) = true.
Proof.
  unfold is_bvh_name. intros H. apply endswith_spec in H. destruct H as [a Ha].
  destruct (os_path_join_suffix root file) as [r ->].
  apply endswith_spec. exists (lower r ++ a)%string.
  rewrite lower_app, Ha, append_assoc'. reflexivity.
Qed.

(** The paths returned are exactly the joins of a visited directory with
    one of its file names that ends in ".bvh", whatever the case of the
    letters; directory names play no part. *)
Theorem get_available_bvh_files_In os_walk base_path p :
  In p (get_available_bvh_files os_walk base_path) <->
  exists root dirs files file,
    In (root, dirs, files)
       (os_walk (match base_path with Some b => b | None => "motion_priors" end)) /\
    In file files /\ is_bvh_name file = true /\ p = os_path_join root file.
Proof.
  rewrite get_available_bvh_files_order, in_flat_map. split.
  - intros ([[root dirs] files] & He & Hp). simpl in Hp.
    apply in_map_iff in Hp. destruct Hp as (file & <- & Hf).
    apply filter_In in Hf. destruct Hf as [Hf Hb].
    exists root, dirs, files, file. auto.
  - intros (root & dirs & files & file & He & Hf & Hb & ->).
    exists (root, dirs, files). split; [exact He|]. simpl.
    apply in_map. apply filter_In. auto.
Qed.

(** Every path returned ends in ".bvh" up to the case of the letters. *)
Theorem get_available_bvh_files_suffix os_walk base_path :
  Forall (fun p => is_bvh_name p = true)
         (get_available_bvh_files os_walk base_path).
Proof.
  apply Forall_forall. intros p Hp.
  rewrite get_available_bvh_files_order in Hp. apply in_flat_map in Hp.
  destruct Hp as ([[root dirs] files] & _ & Hp). cbn [fst snd] in Hp.
  apply in_map_iff in Hp. destruct Hp as (file & <- & Hf).
  apply filter_In in Hf. apply is_bvh_name_join. apply Hf.
Qed.

(** ** Saving and converting *)

Lemma shape_rows a : nth 0 (shape a) O = List.length a.
Proof. destruct a; reflexivity. Qed.

Lemma save_as_npy_run data output_path h :
  save_as_npy data output_path h =
  match write_error h (np_save_name output_path) with
  | Some e => (Raise e, h)
  | None => (Ok tt, logged (stored h (np_save_name output_path) data)
                           (save_lines data output_path))
  end.
Proof.
  unfold save_as_npy, bind_H, np_save, print_line, logged, stored, save_lines.
  destruct (write_error h (np_save_name output_path)); [reflexivity|].
  cbn [disk write_error npy_as_text console]. rewrite shape_rows.
  rewrite <- !app_assoc. reflexivity.
Qed.

Section ConverterFacts.

Variable Bvh_init : string -> result Bvh.

Lemma run_parser_run {A} (c : M A) h :
  run_parser c h =
  (fst (c (world_of h)), logged h (map Parser_line (stdout (snd (c (world_of h)))))).
Proof. unfold run_parser, logged. destruct (c (world_of h)). reflexivity. Qed.

(** Every way for [convert_bvh_to_npy] to return. *)
Lemma convert_bvh_to_npy_Ok bvh_path output_path h d h' :
  convert_bvh_to_npy Bvh_init bvh_path output_path h = (Ok d, h') <->
  disk h bvh_path <> None /\
  (exists w', parse_bvh Bvh_init bvh_path (world_of h) = (Ok d, w')) /\
  let out := or_default output_path (default_output_path bvh_path) in
  write_error h (np_save_name out) = None /\
  h' = logged (stored (logged h [Parser_line (Found_joints (joint_names d))])
                      (np_save_name out) d)
              (save_lines d out).
Proof.
  unfold convert_bvh_to_npy, bind_H, os_path_exists, raise_H, ret_H.
  fold (default_output_path bvh_path).
  set (out := or_default output_path (default_output_path bvh_path)).
  destruct (disk h bvh_path) as [nd|] eqn:Ed; cbn [negb].
  - rewrite run_parser_run.
    destruct (parse_bvh Bvh_init bvh_path (world_of h)) as [[d0|e] w0] eqn:Ep;
      cbn [fst snd]; rewrite ?save_as_npy_run.
    + assert (Hw : stdout w0 = [Found_joints (joint_names d0)]).
      { apply parse_bvh_Ok in Ep.
        destruct Ep as (? & ? & ? & ? & ? & _ & _ & _ & _ & _ & -> & ->).
        reflexivity. }
      rewrite Hw. cbn [map logged write_error].
      destruct (write_error h (np_save_name out)) as [e|] eqn:Ew.
      * split; [discriminate|]. intros (_ & _ & Hn & _). discriminate.
      * split.
        -- intros Hq. injection Hq as <- <-.
           split; [discriminate|]. split; [exists w0; reflexivity|].
           split; reflexivity.
        -- intros (_ & (w' & Hp') & _ & ->). injection Hp' as <- _.
           reflexivity.
    + split; [discriminate|]. intros (_ & (w' & Hp') & _). discriminate.
  - split; [discriminate|]. intros (Hne & _). congruence.
Qed.

(** The file is there, it parses, and the output file can be created:
    the dictionary is returned, it is what the file under the [np.save]
    name holds, no other path changes, and the console shows the joint
    list, the output path as given, the shape and the duration, which is
    the number of rows times the frame time. *)
Theorem convert_bvh_to_npy_saves bvh_path output_path h d w' :
  disk h bvh_path <> None ->
  parse_bvh Bvh_init bvh_path (world_of h) = (Ok d, w') ->
  write_error h (np_save_name
                   (or_default output_path (default_output_path bvh_path))) = None ->
  exists h',
    convert_bvh_to_npy Bvh_init bvh_path output_path h = (Ok d, h') /\
    let out := or_default output_path (default_output_path bvh_path) in
    disk h' (np_save_name out) = Some (Npy d) /\
    (forall p, p <> np_save_name out -> disk h' p = disk h p) /\
    console h' = console h ++ Parser_line (Found_joints (joint_names d))
                           :: save_lines d out.
Proof.
  intros He Hp Hw. eexists. split.
  - apply convert_bvh_to_npy_Ok. split; [exact He|].
    split; [exists w'; exact Hp|]. split; [exact Hw | reflexivity].
  - cbn [logged stored disk console]. split; [|split].
    + rewrite String.eqb_refl. reflexivity.
    + intros p Hne. destruct (String.eqb_spec p (np_save_name
        (or_default output_path (default_output_path bvh_path)))); congruence.
    + rewrite <- app_assoc. reflexivity.
Qed.

(** The failures that come before anything is written: no file at the
    path, a parse that raises, an output file that cannot be created.
    With any of them the conversion raises, and no file is written or
    changed. *)
Theorem convert_bvh_to_npy_early_failure_writes_nothing bvh_path output_path h :
  disk h bvh_path = None \/
  (exists e, fst (parse_bvh Bvh_init bvh_path (world_of h)) = Raise e) \/
  (exists e, write_error h (np_save_name
               (or_default output_path (default_output_path bvh_path))) = Some e) ->
  exists e h',
    convert_bvh_to_npy Bvh_init bvh_path output_path h = (Raise e, h') /\
    disk h' = disk h.
Proof.
  intros Hcase.
  unfold convert_bvh_to_npy, bind_H, os_path_exists, raise_H, ret_H.
  fold (default_output_path bvh_path).
  destruct (disk h bvh_path) as [nd|] eqn:Ed; cbn [negb].
  - rewrite run_parser_run.
    destruct (fst (parse_bvh Bvh_init bvh_path (world_of h))) as [d0|e0] eqn:Ep.
    + rewrite save_as_npy_run. cbn [logged write_error].
      destruct (write_error h _) as [e|] eqn:Ew.
      * exists e. eexists. split; reflexivity.
      * exfalso. destruct Hcase as [Hc|[[e Hc]|[e Hc]]]; congruence.
    + exists e0. eexists. split; reflexivity.
  - eexists. eexists. split; reflexivity.
Qed.

(** [main] does what [convert_bvh_to_npy] does on the parsed arguments,
    and returns nothing. *)
Theorem main_is_convert args h :
  main Bvh_init (Ok args) h =
  (match fst (convert_bvh_to_npy Bvh_init (input_bvh args) (output' args) h) with
   | Ok _ => Ok tt
   | Raise e => Raise e
   end,
   snd (convert_bvh_to_npy Bvh_init (input_bvh args) (output' args) h)).
Proof.
  unfold main, convert_bvh_to_npy, bind_H, lift_H, os_path_exists, raise_H, ret_H.
  destruct (disk h (input_bvh args)); cbn [negb]; [|reflexivity].
  destruct (run_parser _ h) as [[d|e] h1]; [|reflexivity].
  destruct (save_as_npy d _ h1) as [[[]|e] h2]; reflexivity.
Qed.

Lemma eqb_app_npy out : String.eqb out (out ++ ".npy")%string = false.
Proof.
  destruct (String.eqb_spec out (out ++ ".npy")%string) as [E|]; [|reflexivity].
  apply (f_equal String.length) in E. rewrite append_length in E.
  simpl in E. lia.
Qed.

(** With an output path that does not end in ".npy", the line printed
    names the path as given, while the file is written under that path
    with ".npy" appended; the path named in the line is left as it was. *)
Theorem convert_bvh_to_npy_reports_given_path bvh_path out h d h' :
  convert_bvh_to_npy Bvh_init bvh_path (Some out) h = (Ok d, h') ->
  out <> "" ->
  endswith out ".npy" = false ->
  In (Saved_line out) (console h') /\
  disk h' (out ++ ".npy")%string = Some (Npy d) /\
  disk h' out = disk h out.
Proof.
  intros Hc Hne He. apply convert_bvh_to_npy_Ok in Hc.
  destruct Hc as (_ & _ & _ & ->). unfold or_default.
  destruct (String.eqb_spec out "") as [|_]; [contradiction|].
  unfold np_save_name. rewrite He.
  cbn [logged stored disk console save_lines]. split; [|split].
  - apply in_or_app. right. left. reflexivity.
  - rewrite String.eqb_refl. reflexivity.
  - rewrite eqb_app_npy. reflexivity.
Qed.

(** Without an output path, a successful conversion writes onto its own
    input exactly when the input path ends in ".npy" and has no ".bvh" in
    it; in every other case the input file is left as it was. *)
Theorem convert_bvh_to_npy_input_file bvh_path h d h' :
  convert_bvh_to_npy Bvh_init bvh_path None h = (Ok d, h') ->
  (occurs ".bvh" bvh_path = false /\ endswith bvh_path ".npy" = true ->
   disk h' bvh_path = Some (Npy d)) /\
  (occurs ".bvh" bvh_path = true \/ endswith bvh_path ".npy" = false ->
   disk h' bvh_path = disk h bvh_path).
Proof.
  intros Hc. apply convert_bvh_to_npy_Ok in Hc.
  destruct Hc as (_ & _ & _ & ->). cbn [or_default logged stored disk].
  pose proof (np_save_name_default_path bvh_path) as Hn.
  destruct (String.eqb_spec bvh_path
              (np_save_name (default_output_path bvh_path))) as [E|Hne].
  - split; [reflexivity|]. symmetry in E. apply Hn in E. destruct E as [E1 E2].
    rewrite E1, E2. intros [|]; discriminate.
  - split; [|reflexivity]. intros H. apply Hn in H. congruence.
Qed.

End ConverterFacts.

(** ** More on the parser: edges of the frame loop *)

Lemma axis_loop_error mocap i joint pre axis post d e :
  Forall (absent_at mocap i joint) pre ->
  frame_joint_channel mocap i joint axis = Raise e ->
  (forall msg, e <> KeyError msg) ->
  axis_loop mocap i joint (pre ++ axis :: post) d = Raise e.
Proof.
  intros Hpre He Hk. induction Hpre as [|a pre [msg Ha] _ IH]; simpl.
  - rewrite He. destruct e; try reflexivity. exfalso. exact (Hk _ eq_refl).
  - rewrite Ha. exact IH.
Qed.

Lemma frames_loop_first_error mocap names pre k post acc e :
  Forall (fun i => exists row, frame_body mocap names i = Ok row) pre ->
  frame_body mocap names k = Raise e ->
  frames_loop mocap names (pre ++ k :: post) acc = Raise e.
Proof.
  intros Hpre Hk. revert acc.
  induction Hpre as [|i pre [row Hi] _ IH]; intros acc; cbn [app frames_loop].
  - rewrite Hk. reflexivity.
  - rewrite Hi. apply IH.
Qed.

Lemma range_split k n :
  (0 <= k < n)%Z -> exists post, range n = range k ++ k :: post.
Proof.
  intros H. unfold range.
  replace (Z.to_nat n) with (Z.to_nat k + S (Z.to_nat n - Z.to_nat k - 1))%nat
    by lia.
  rewrite seq_app, map_app. cbn [seq map Nat.add].
  replace (Z.of_nat (Z.to_nat k)) with k by lia.
  eexists. reflexivity.
Qed.

Section ParserEdges.

Variable Bvh_init : string -> result Bvh.

(** The fallback over the axes passes over a missing channel only: with
    the root samples of the first frame in place, an exception other than
    KeyError from a rotation lookup of the first joint after the root,
    the axes tried before it being missing, ends the parse, whatever the
    axes after it hold. *)
Theorem parse_bvh_lookup_error_propagates
    w path mocap joints root joint rest n pre axis post e x y z rz rx ry :
  loads Bvh_init w path mocap ->
  get_joints mocap = Ok joints ->
  map name joints = root :: joint :: rest ->
  nframes mocap = Ok n ->
  (1 <= n)%Z ->
  root_samples mocap 0 "Hips" x y z rz rx ry ->
  joint_axes = pre ++ axis :: post ->
  Forall (absent_at mocap 0 joint) pre ->
  frame_joint_channel mocap 0 joint axis = Raise e ->
  (forall msg, e <> KeyError msg) ->
  parse_bvh Bvh_init path w = (Raise e, printed w (map name joints)).
Proof.
  intros Hl Hj Hnames Hn Hpos (Hx & Hy & Hz & Hrz & Hrx & Hry) Hax Hpre He Hk.
  apply (parse_bvh_loop_error _ _ _ mocap _ n); try assumption.
  destruct (range_cons n Hpos) as [idx ->].
  apply frames_loop_Raise_first. unfold frame_body.
  assert (Ep : list_comp (frame_joint_channel mocap 0 "Hips")
                 root_position_channels = Ok [x; y; z]).
  { apply list_comp_Ok. repeat constructor; assumption. }
  assert (Er : list_comp (frame_joint_channel mocap 0 "Hips")
                 root_rotation_channels = Ok [rz; rx; ry]).
  { apply list_comp_Ok. repeat constructor; assumption. }
  rewrite Ep, Er, Hnames. cbn [tl joints_loop]. rewrite Hax.
  rewrite (axis_loop_error _ _ _ _ _ _ _ _ Hpre He Hk). reflexivity.
Qed.

(** A Z rotation that the lookup finds is the value of a joint after the
    root: in every dataset returned, the row of a frame holds the Z
    sample of the joint in the joint's column, and the array its
    binary32 image, whatever the Y and X lookups would give. *)
Theorem parse_bvh_Zrotation_emitted path w d w' :
  parse_bvh Bvh_init path w = (Ok d, w') ->
  exists mocap n rows,
    loads Bvh_init w path mocap /\
    nframes mocap = Ok n /\
    frames d = np_array_float32 rows /\
    forall i k joint v,
      (0 <= i < n)%Z ->
      nth_error (joint_names d) (S k) = Some joint ->
      frame_joint_channel mocap i joint "Zrotation" = Ok v ->
      emits d rows i (6 + k) v.
Proof.
  intros Hp. apply parse_bvh_Ok in Hp.
  destruct Hp as (mocap & joints & n & rows & ft & Hl & _ & Hn & Hr & _ & -> & _).
  exists mocap, n, rows. repeat (split; [assumption|]).
  split; [reflexivity|]. cbn [joint_names]. intros i k joint v Hi Hj Hz.
  destruct (rows_frame _ _ _ _ _ Hr Hi) as (row & Hrow & Hbody).
  destruct (frame_body_joint _ _ _ _ _ _ Hbody Hj) as (v0 & Hk & Hax).
  assert (Hv : axis_loop mocap i joint joint_axes 0%float = Ok v)
    by exact (axis_loop_value mocap i joint [] _ _ _ v (Forall_nil _) Hz).
  assert (v0 = v) by congruence. subst v0.
  apply emits_of_sample; [reflexivity|].
  unfold sample_at. rewrite Hrow. exact Hk.
Qed.

(** A negative declared frame count is not an error: the loop does not
    run, no sample is looked up, and the dataset has an empty frame
    sequence. *)
Theorem parse_bvh_negative_frame_count w path mocap joints n ft :
  loads Bvh_init w path mocap ->
  get_joints mocap = Ok joints ->
  nframes mocap = Ok n ->
  (n < 0)%Z ->
  frame_time mocap = Ok ft ->
  parse_bvh Bvh_init path w =
    (Ok {| joint_names := map name joints; frames := []; ds_frame_time := ft |},
     printed w (map name joints)).
Proof.
  intros Hl Hj Hn Hneg Ht. apply parse_bvh_Ok.
  exists mocap, joints, n, [], ft.
  repeat (split; [assumption|]). split.
  - rewrite range_nonpos by lia. constructor.
  - split; [assumption|]. split; reflexivity.
Qed.

(** Joints are looked up by name: two joints after the root that bear the
    same name get the same value in every frame. *)
Theorem parse_bvh_same_name_same_column path w d w' j k joint i :
  parse_bvh Bvh_init path w = (Ok d, w') ->
  nth_error (joint_names d) (S j) = Some joint ->
  nth_error (joint_names d) (S k) = Some joint ->
  cell d i (6 + j) = cell d i (6 + k).
Proof.
  intros Hp Hj Hk. apply parse_bvh_Ok in Hp.
  destruct Hp as (mocap & joints & n & rows & ft & _ & _ & _ & Hr & _ & -> & _).
  cbn [joint_names] in Hj, Hk. unfold cell. cbn [frames].
  unfold np_array_float32. rewrite nth_error_map.
  destruct (nth_error rows (Z.to_nat i)) as [row|] eqn:Erow; [|reflexivity].
  cbn [option_map]. apply Forall2_flip in Hr.
  destruct (Forall2_nth_error _ _ _ _ _ Hr Erow) as (i0 & _ & Hbody).
  destruct (frame_body_joint _ _ _ _ _ _ Hbody Hj) as (vj & Hvj & Haj).
  destruct (frame_body_joint _ _ _ _ _ _ Hbody Hk) as (vk & Hvk & Hak).
  rewrite !nth_error_map, Hvj, Hvk. congruence.
Qed.

(** Once the joints are listed, the joint list is printed, once, whether
    the frames then parse or not; the files are as they were. *)
Theorem parse_bvh_prints_joint_list w path mocap joints :
  loads Bvh_init w path mocap ->
  get_joints mocap = Ok joints ->
  snd (parse_bvh Bvh_init path w) = printed w (map name joints).
Proof.
  intros (text & Ef & Eb) Ej.
  unfold parse_bvh, bind, lift, open_read, print, ret, printed.
  rewrite Ef, Eb, Ej.
  destruct (nframes mocap) as [n|]; [|reflexivity].
  destruct (frames_loop _ _ _ _); [|reflexivity].
  destruct (frame_time mocap); reflexivity.
Qed.

(** The exception raised while the row of frame [k] is built, the rows
    before it having been built, is what the caller gets: the frames
    after it are not looked at and the rows built so far are dropped. *)
Theorem parse_bvh_first_failing_frame w path mocap joints n k e :
  loads Bvh_init w path mocap ->
  get_joints mocap = Ok joints ->
  nframes mocap = Ok n ->
  (0 <= k < n)%Z ->
  (forall i, (0 <= i < k)%Z ->
     exists row, frame_body mocap (map name joints) i = Ok row) ->
  frame_body mocap (map name joints) k = Raise e ->
  parse_bvh Bvh_init path w = (Raise e, printed w (map name joints)).
Proof.
  intros Hl Hj Hn Hk Hbefore He.
  apply (parse_bvh_loop_error _ _ _ mocap _ n); try assumption.
  destruct (range_split k n Hk) as [post ->].
  apply frames_loop_first_error; [|exact He].
  apply Forall_forall. intros i Hi. apply In_range in Hi. exact (Hbefore i Hi).
Qed.

(** The array of a valid input has shape [(n, len(joint_names) + 5)] when
    the file declares [n >= 1] frames, and shape [(0,)], with no second
    dimension, when it declares none. *)
Theorem parse_bvh_array_shape w path mocap joints n ft :
  valid_input Bvh_init w path mocap joints n ft ->
  exists d w',
    parse_bvh Bvh_init path w = (Ok d, w') /\
    shape (frames d) =
      if (n =? 0)%Z then [O]
      else [Z.to_nat n; (List.length (joint_names d) + 5)%nat].
Proof.
  intros V. destruct (parse_valid _ _ _ _ _ _ _ V) as (rows & Hr & Hp).
  eexists; eexists. split; [exact Hp|]. cbn [frames joint_names].
  pose proof (vi_count _ _ _ _ _ _ _ V) as Hn.
  pose proof (Forall2_length_eq _ _ _ Hr) as Hlen. rewrite length_range in Hlen.
  destruct (Z.eqb_spec n 0) as [->|Hnz].
  - destruct rows; [reflexivity | discriminate].
  - destruct rows as [|row rows]; [simpl in Hlen; lia|].
    cbn [np_array_float32 map shape]. rewrite !length_map.
    destruct (range_cons n ltac:(lia)) as [idx Hidx]. rewrite Hidx in Hr.
    inversion Hr as [|? ? ? ? Hbody _]; subst.
    rewrite (frame_body_width _ _ _ _ Hbody).
    pose proof (vi_root _ _ _ _ _ _ _ V) as Hne.
    destruct joints as [|root rest]; [congruence|]. cbn [map tl List.length].
    rewrite !length_map. cbn [List.length] in Hlen. rewrite <- Hlen.
    f_equal. f_equal. lia.
Qed.

End ParserEdges.

(** * The further properties on concrete files *)

Lemma default_output_path_absent_witness :
  default_output_path "WALK.BVH" = "WALK.BVH".
Proof. apply default_output_path_absent. reflexivity. Defined.

(** A directory called takes.bvh is renamed as well. *)
Lemma default_output_path_first_witness :
  default_output_path "takes.bvh/walk.bvh" =
  ("takes" ++ "_parsed.npy" ++ default_output_path "/walk.bvh")%string.
Proof.
  apply (default_output_path_first "takes" "/walk.bvh"). reflexivity.
Defined.

Lemma convert_bvh_to_npy_saves_witness :
  exists h',
    convert_bvh_to_npy demo_init "three_joints.bvh" None demo_host =
      (Ok three_joints_dataset, h') /\
    disk h' "three_joints_parsed.npy" = Some (Npy three_joints_dataset) /\
    (forall p, p <> "three_joints_parsed.npy" -> disk h' p = disk demo_host p) /\
    console h' = [ Parser_line (Found_joints ["Hips"; "Spine"; "Head"]);
                   Saved_line "three_joints_parsed.npy";
                   Shape_line [2; 8]%nat;
                   Joints_line 3 0.5 ].
Proof.
  refine (convert_bvh_to_npy_saves demo_init "three_joints.bvh" None demo_host
            three_joints_dataset
            (printed (world_of demo_host) ["Hips"; "Spine"; "Head"]) _ _ _).
  - discriminate.
  - reflexivity.
  - reflexivity.
Defined.

(** No joint is called Hips: the parse raises, and the disk is as it
    was. *)
Lemma convert_bvh_to_npy_early_failure_writes_nothing_witness :
  exists e h',
    convert_bvh_to_npy demo_init "no_hips.bvh" None demo_host = (Raise e, h') /\
    disk h' = disk demo_host.
Proof.
  apply (convert_bvh_to_npy_early_failure_writes_nothing demo_init
           "no_hips.bvh" None demo_host).
  right. left. exists (Exception "LookupError" "joint not found").
  reflexivity.
Defined.

Lemma convert_bvh_to_npy_reports_given_path_witness :
  In (Saved_line "out") (console no_frames_saved) /\
  disk no_frames_saved "out.npy" = Some (Npy no_frames_dataset) /\
  disk no_frames_saved "out" = disk demo_host "out".
Proof.
  apply (convert_bvh_to_npy_reports_given_path demo_init "no_frames.bvh" "out"
           demo_host no_frames_dataset no_frames_saved).
  - reflexivity.
  - discriminate.
  - reflexivity.
Defined.

(** The BVH text kept under the name capture.npy is replaced by the saved
    dictionary. *)
Lemma convert_bvh_to_npy_input_file_witness :
  disk demo_host "capture.npy" = Some (Text "three_joints") /\
  disk capture_saved "capture.npy" = Some (Npy three_joints_dataset).
Proof.
  split; [reflexivity|].
  apply (proj1 (convert_bvh_to_npy_input_file demo_init "capture.npy" demo_host
                  three_joints_dataset capture_saved eq_refl)).
  split; reflexivity.
Defined.

Lemma edge_loads (file : string) (f : MotionFile) :
  In (file, f) [ ("negative_frames", negative_frames); ("short_row", short_row);
                 ("missing_frame", missing_frame); ("two_arms", two_arms) ] ->
  loads edge_init edge_world (file ++ ".bvh") (table_bvh f).
Proof.
  intros H. exists file. simpl in H.
  destruct H as [H|[H|[H|[H|[]]]]]; injection H as <- <-; split; reflexivity.
Defined.

(** The row of samples stops before the channel of Spine: the lookup
    raises IndexError, which the fallback does not catch. *)
Lemma parse_bvh_lookup_error_propagates_witness :
  parse_bvh edge_init "short_row.bvh" edge_world =
    (Raise (Exception "IndexError" "list index out of range"),
     printed edge_world ["Hips"; "Spine"]).
Proof.
  apply (parse_bvh_lookup_error_propagates edge_init edge_world "short_row.bvh"
           (table_bvh short_row)
           [ {| name := "Hips" |}; {| name := "Spine" |} ] "Hips" "Spine" [] 1
           [] "Zrotation" ["Yrotation"; "Xrotation"]
           (Exception "IndexError" "list index out of range")
           1 2 3 4 5 6).
  - apply (edge_loads "short_row"). simpl. auto.
  - reflexivity.
  - reflexivity.
  - reflexivity.
  - lia.
  - repeat split; reflexivity.
  - reflexivity.
  - constructor.
  - reflexivity.
  - discriminate.
Defined.

Lemma parse_bvh_negative_frame_count_witness :
  parse_bvh edge_init "negative_frames.bvh" edge_world =
    (Ok {| joint_names := ["Hips"; "Spine"; "Head"]; frames := [];
           ds_frame_time := 0.25 |},
     printed edge_world ["Hips"; "Spine"; "Head"]).
Proof.
  apply (parse_bvh_negative_frame_count edge_init edge_world
           "negative_frames.bvh" (table_bvh negative_frames)
           three_joints_nodes (-3) 0.25).
  - apply (edge_loads "negative_frames"). simpl. auto.
  - reflexivity.
  - reflexivity.
  - lia.
  - reflexivity.
Defined.

(** The second Arm has the sample 80 in the file and gets the 70 of the
    first. *)
Lemma parse_bvh_same_name_same_column_witness :
  cell two_arms_dataset 0 6 = cell two_arms_dataset 0 7.
Proof.
  apply (parse_bvh_same_name_same_column edge_init "two_arms.bvh" edge_world
           two_arms_dataset (printed edge_world ["Hips"; "Arm"; "Arm"])
           0 1 "Arm" 0%Z); reflexivity.
Defined.

Lemma parse_bvh_prints_joint_list_witness :
  snd (parse_bvh edge_init "missing_frame.bvh" edge_world) =
  printed edge_world ["Hips"; "Spine"; "Head"].
Proof.
  apply (parse_bvh_prints_joint_list edge_init edge_world "missing_frame.bvh"
           (table_bvh missing_frame) three_joints_nodes).
  - apply (edge_loads "missing_frame"). simpl. auto.
  - reflexivity.
Defined.

(** Two frames declared, one row of samples: frame 0 is built, frame 1
    raises. *)
Lemma parse_bvh_first_failing_frame_witness :
  parse_bvh edge_init "missing_frame.bvh" edge_world =
    (Raise (Exception "IndexError" "list index out of range"),
     printed edge_world ["Hips"; "Spine"; "Head"]).
Proof.
  apply (parse_bvh_first_failing_frame edge_init edge_world "missing_frame.bvh"
           (table_bvh missing_frame) three_joints_nodes 2 1).
  - apply (edge_loads "missing_frame"). simpl. auto.
  - reflexivity.
  - reflexivity.
  - lia.
  - intros i Hi. assert (E : i = 0%Z) by lia. subst i.
    eexists. reflexivity.
  - reflexivity.
Defined.

Lemma no_frames_valid :
  valid_input demo_init demo_world "no_frames.bvh" (table_bvh no_frames)
              three_joints_nodes 0 0.25.
Proof.
  constructor.
  - exists "no_frames". split; reflexivity.
  - reflexivity.
  - discriminate.
  - reflexivity.
  - lia.
  - reflexivity.
  - intros i Hi. lia.
  - intros i joint Hi. lia.
Defined.

Lemma parse_bvh_array_shape_witness :
  exists d w',
    parse_bvh demo_init "no_frames.bvh" demo_world = (Ok d, w') /\
    shape (frames d) = [O].
Proof.
  exact (parse_bvh_array_shape demo_init _ _ _ _ _ _ no_frames_valid).
Defined.

(** Arm declares its X, Y and Z rotations, 70, 80 and 90: column 6 holds
    the Z sample. *)
Lemma parse_bvh_Zrotation_emitted_witness :
  exists mocap n rows,
    loads package_init package_world "arm_three_axes.bvh" mocap /\
    nframes mocap = Ok n /\
    np_array_float32 [ [1; 2; 3; 4; 5; 6; 90] ]%float = np_array_float32 rows /\
    forall i k joint v,
      (0 <= i < n)%Z ->
      nth_error ["Hips"; "Arm"] (S k) = Some joint ->
      frame_joint_channel mocap i joint "Zrotation" = Ok v ->
      emits {| joint_names := ["Hips"; "Arm"];
               frames := np_array_float32 [ [1; 2; 3; 4; 5; 6; 90] ]%float;
               ds_frame_time := 0.25 |} rows i (6 + k) v.
Proof.
  apply (parse_bvh_Zrotation_emitted package_init "arm_three_axes.bvh"
           package_world
           {| joint_names := ["Hips"; "Arm"];
              frames := np_array_float32 [ [1; 2; 3; 4; 5; 6; 90] ]%float;
              ds_frame_time := 0.25 |}
           (printed package_world ["Hips"; "Arm"])).
  reflexivity.
Defined.
